(** * Memory_Pool: a shallow embedding of [Memory_Pool.h] and its properties

    The header defines a size-class allocator: eight [Fixed_Size_Pool]s
    (8 .. 1024 bytes), a per-thread [Thread_Local_Cache] in front of them, the
    dispatching [Memory_Pool] with its statistics, and the scope-bound
    [Memory_Pool_RAII].

    Modelling choices.
    - [size_t] is a 64-bit unsigned integer: a [Z] kept in [0, 2^64) by [wrap].
    - A pointer is a [Z]; [nullptr] is [0].  A [Fixed_Size_Pool] is identified
      by the address it lives at ([this]).
    - Memory is a [Heap]: the [Memory_Block_Header] objects that were written,
      keyed by the address they were written at; the payload bytes; and the
      blocks the platform allocator handed out and did not get back.
    - [std::malloc] belongs to the platform.  Every operation calls it at most
      once, so the platform's answer to that call is an argument ([answer]) of
      the operation; [nullptr] is the failing answer.
    - Reading a header where none was written, indexing a vector out of range
      and freeing what was not allocated are undefined behaviour: the operation
      yields [None].
    - One thread is modelled; the mutexes disappear, and the cleaner thread only
      ever stores [0] into [fragment_count]. *)

From Stdlib Require Import ZArith Lia Strings.Byte.
From stdpp Require Import base option list gmap strings.

Local Open Scope Z_scope.

(** ** Machine integers and pointers *)

Definition size_t_modulus : Z := 2 ^ 64.

Definition wrap (z : Z) : Z := z mod size_t_modulus.

(** [~x] on a [size_t]. *)
Definition bit_not (x : Z) : Z := wrap (Z.lnot x).

Definition nullptr : Z := 0.

(** [(n + alignment - 1) & ~(alignment - 1)], as written three times in the
    source. *)
Definition align_up (n alignment : Z) : Z :=
  Z.land (wrap (n + alignment - 1)) (bit_not (wrap (alignment - 1))).

(** ** Block headers *)

Module Memory_Block_Header.

Record t : Type := mk {
  size : Z;
  block_size : Z;
  in_use : bool;
  pool_ptr : Z
}.

Definition set_in_use (b : bool) (hd : t) : t :=
  mk (size hd) (block_size hd) b (pool_ptr hd).

End Memory_Block_Header.

(** [sizeof(Memory_Block_Header)] with 8-byte [size_t] and pointers: two
  [size_t], one [bool] padded to 8, one pointer. *)
Definition sizeof_Memory_Block_Header : Z := 32.

(** ** The heap and the platform allocator *)

Record Heap : Type := mkHeap {
headers : gmap Z Memory_Block_Header.t;
data : gmap Z byte;
live : gmap Z Z
}.

Definition set_headers (f : gmap Z Memory_Block_Header.t → gmap Z Memory_Block_Header.t)
  (h : Heap) : Heap :=
mkHeap (f (headers h)) (data h) (live h).

Definition set_data (f : gmap Z byte → gmap Z byte) (h : Heap) : Heap :=
mkHeap (headers h) (f (data h)) (live h).

Definition set_live (f : gmap Z Z → gmap Z Z) (h : Heap) : Heap :=
mkHeap (headers h) (data h) (f (live h)).

(** [std::malloc(n)] when the platform answers [answer]. *)
Definition std_malloc (answer n : Z) (h : Heap) : Z * Heap :=
if answer =? nullptr then (nullptr, h)
else (answer, set_live <[answer := n]> h).

(** [std::free(p)]: the block and the header object at its base are gone. *)
Definition std_free (p : Z) (h : Heap) : option Heap :=
if p =? nullptr then Some h
else match live h !! p with
     | None => None
     | Some _ => Some (set_headers (delete p) (set_live (delete p) h))
     end.

(** [std::memcpy(dst, src, n)]: the [n] bytes are read from the memory as it
  is at the call (the regions may not overlap). *)
Definition copy_byte (src dst : Z) (from : gmap Z byte) (i : nat)
  (d : gmap Z byte) : gmap Z byte :=
match from !! (src + Z.of_nat i) with
| Some b => <[dst + Z.of_nat i := b]> d
| None => delete (dst + Z.of_nat i) d
end.

Definition std_memcpy (dst src n : Z) (h : Heap) : Heap :=
set_data (λ d, foldr (copy_byte src dst (data h)) d (seq 0 (Z.to_nat n))) h.

(** ** Fixed_Size_Pool *)

Module Fixed_Size_Pool.

Record t : Type := mk {
  this : Z;
  block_size_ : Z;
  alignment_ : Z;
  free_blocks_ : list Z;
  current_used_ : Z;
  current_free_ : Z;
  total_allocated_ : Z
}.

Definition ctor (self block_size alignment : Z) : t :=
  mk self (align_up block_size alignment) alignment [] 0 0 0.

Definition header_size (p : t) : Z :=
  align_up sizeof_Memory_Block_Header (alignment_ p).

Definition allocate (answer : Z) (p : t) (h : Heap) : Z * t * Heap :=
  match free_blocks_ p with
  | ptr :: rest =>
      (ptr,
       mk (this p) (block_size_ p) (alignment_ p) rest
          (wrap (current_used_ p + 1)) (wrap (current_free_ p - 1))
          (total_allocated_ p),
       h)
  | [] =>
      let total_size := wrap (header_size p + block_size_ p) in
      let '(raw_ptr, h1) := std_malloc answer total_size h in
      if raw_ptr =? nullptr then (nullptr, p, h1)
      else
        let header :=
          Memory_Block_Header.mk (block_size_ p) (block_size_ p) true (this p) in
        let h2 := set_headers <[raw_ptr := header]> h1 in
        (raw_ptr + header_size p,
         mk (this p) (block_size_ p) (alignment_ p) (free_blocks_ p)
            (wrap (current_used_ p + 1)) (current_free_ p)
            (wrap (total_allocated_ p + 1)),
         h2)
  end.

Definition deallocate (ptr : Z) (p : t) (h : Heap) : option (t * Heap) :=
  if ptr =? nullptr then Some (p, h)
  else
    match headers h !! (ptr - header_size p) with
    | None => None
    | Some header =>
        if negb (Memory_Block_Header.pool_ptr header =? this p)
           || negb (Memory_Block_Header.in_use header)
        then Some (p, h)
        else
          Some (mk (this p) (block_size_ p) (alignment_ p)
                   (free_blocks_ p ++ [ptr])
                   (wrap (current_used_ p - 1)) (wrap (current_free_ p + 1))
                   (total_allocated_ p),
                set_headers
                  <[ptr - header_size p := Memory_Block_Header.set_in_use false header]> h)
    end.

End Fixed_Size_Pool.

(** ** Thread_Local_Cache *)

Module Thread_Local_Cache.

Record t : Type := mk {
  cache : list (list Z);
  cache_size : Z
}.

Definition ctor : t := mk (replicate 8 []) 16.

Definition set_cache_size (n : Z) (c : t) : t := mk (cache c) n.

Definition set_slot (i : nat) (v : list Z) (c : t) : t :=
  mk (<[i := v]> (cache c)) (cache_size c).

End Thread_Local_Cache.

(** ** Memory_Pool *)

Module Memory_Pool.

Record PoolConfig : Type := mkConfig {
  small_block_sizes : list Z;
  max_total_memory : Z;
  alignment : Z;
  enable_tls : bool;
  tls_cache_size : Z;
  cleanup_interval : Z;
  idle_timeout : Z
}.

(** The default member initialisers of [PoolConfig]. *)
Definition default_config : PoolConfig :=
  mkConfig [8; 16; 32; 64; 128; 256; 512; 1024] (1024 * 1024 * 1024) 8 true 16 30 300.

Record PoolStats : Type := mkStats {
  total_allocated : Z;
  total_freed : Z;
  current_used : Z;
  current_free : Z;
  alloc_count : Z;
  free_count : Z;
  fragment_count : Z
}.

Record t : Type := mk {
  config_ : PoolConfig;
  stats_ : PoolStats;
  pools_ : list Fixed_Size_Pool.t;
  shutdown_ : bool
}.

(** What a member function of [Memory_Pool] can touch: the object itself,
    the calling thread's [thread_local] cache ([None] until
    [tls_initialized]), and the heap. *)
Record World : Type := mkWorld {
  pool : t;
  tls_cache : option Thread_Local_Cache.t;
  heap : Heap
}.

Definition set_stats (f : PoolStats → PoolStats) (w : World) : World :=
  mkWorld (mk (config_ (pool w)) (f (stats_ (pool w))) (pools_ (pool w))
              (shutdown_ (pool w)))
          (tls_cache w) (heap w).

Definition set_pools (f : list Fixed_Size_Pool.t → list Fixed_Size_Pool.t)
    (w : World) : World :=
  mkWorld (mk (config_ (pool w)) (stats_ (pool w)) (f (pools_ (pool w)))
              (shutdown_ (pool w)))
          (tls_cache w) (heap w).

Definition set_shutdown (b : bool) (w : World) : World :=
  mkWorld (mk (config_ (pool w)) (stats_ (pool w)) (pools_ (pool w)) b)
          (tls_cache w) (heap w).

Definition set_tls (c : option Thread_Local_Cache.t) (w : World) : World :=
  mkWorld (pool w) c (heap w).

Definition set_heap (h : Heap) (w : World) : World :=
  mkWorld (pool w) (tls_cache w) h.

(** The compound assignments on the atomic counters. *)
Definition add_total_allocated (n : Z) (s : PoolStats) : PoolStats :=
  mkStats (wrap (total_allocated s + n)) (total_freed s) (current_used s)
          (current_free s) (alloc_count s) (free_count s) (fragment_count s).

Definition add_total_freed (n : Z) (s : PoolStats) : PoolStats :=
  mkStats (total_allocated s) (wrap (total_freed s + n)) (current_used s)
          (current_free s) (alloc_count s) (free_count s) (fragment_count s).

Definition add_current_used (n : Z) (s : PoolStats) : PoolStats :=
  mkStats (total_allocated s) (total_freed s) (wrap (current_used s + n))
          (current_free s) (alloc_count s) (free_count s) (fragment_count s).

Definition sub_current_used (n : Z) (s : PoolStats) : PoolStats :=
  mkStats (total_allocated s) (total_freed s) (wrap (current_used s - n))
          (current_free s) (alloc_count s) (free_count s) (fragment_count s).

Definition add_current_free (n : Z) (s : PoolStats) : PoolStats :=
  mkStats (total_allocated s) (total_freed s) (current_used s)
          (wrap (current_free s + n)) (alloc_count s) (free_count s)
          (fragment_count s).

Definition sub_current_free (n : Z) (s : PoolStats) : PoolStats :=
  mkStats (total_allocated s) (total_freed s) (current_used s)
          (wrap (current_free s - n)) (alloc_count s) (free_count s)
          (fragment_count s).

Definition incr_alloc_count (s : PoolStats) : PoolStats :=
  mkStats (total_allocated s) (total_freed s) (current_used s) (current_free s)
          (wrap (alloc_count s + 1)) (free_count s) (fragment_count s).

Definition incr_free_count (s : PoolStats) : PoolStats :=
  mkStats (total_allocated s) (total_freed s) (current_used s) (current_free s)
          (alloc_count s) (wrap (free_count s + 1)) (fragment_count s).

(** [config_.small_block_sizes[i]]: an array of eight [size_t]. *)
Definition class_size (cfg : PoolConfig) (i : Z) : Z :=
  small_block_sizes cfg !!! Z.to_nat i.

(** The [for] loop of [find_pool_index]: [n] iterations left, at index [i]. *)
Fixpoint find_pool_index_loop (cfg : PoolConfig) (size : Z) (n : nat) (i : Z) : Z :=
  match n with
  | O => -1
  | S n' =>
      if size <=? class_size cfg i then i
      else find_pool_index_loop cfg size n' (i + 1)
  end.

Definition find_pool_index (cfg : PoolConfig) (size : Z) : Z :=
  find_pool_index_loop cfg size 8 0.

(** [get_tls_cache]: the cache is created on the thread's first call. *)
Definition get_tls_cache (w : World) : option Thread_Local_Cache.t * World :=
  if negb (enable_tls (config_ (pool w))) then (None, w)
  else
    match tls_cache w with
    | Some c => (Some c, w)
    | None =>
        let c := Thread_Local_Cache.set_cache_size
                   (tls_cache_size (config_ (pool w))) Thread_Local_Cache.ctor in
        (Some c, set_tls (Some c) w)
    end.

(** [v.back()] and [v.pop_back()] of a non-empty vector. *)
Definition allocate_from_tls (pool_index : Z) (w : World) : Z * World :=
  let '(cache, w1) := get_tls_cache w in
  match cache with
  | None => (nullptr, w1)
  | Some c =>
      if (pool_index <? 0) || (pool_index >=? 8) then (nullptr, w1)
      else
        let v := Thread_Local_Cache.cache c !!! Z.to_nat pool_index in
        match last v with
        | Some ptr =>
            (ptr,
             set_tls (Some (Thread_Local_Cache.set_slot (Z.to_nat pool_index)
                              (removelast v) c)) w1)
        | None => (nullptr, w1)
        end
  end.

Definition return_to_tls (pool_index ptr : Z) (w : World) : bool * World :=
  let '(cache, w1) := get_tls_cache w in
  match cache with
  | None => (false, w1)
  | Some c =>
      if (pool_index <? 0) || (pool_index >=? 8) || (ptr =? nullptr)
      then (false, w1)
      else
        let v := Thread_Local_Cache.cache c !!! Z.to_nat pool_index in
        if Z.of_nat (length v) <? Thread_Local_Cache.cache_size c then
          (true,
           set_tls (Some (Thread_Local_Cache.set_slot (Z.to_nat pool_index)
                            (v ++ [ptr]) c)) w1)
        else (false, w1)
  end.

Definition cleanup_idle_blocks (w : World) : World :=
  set_stats (λ s, mkStats (total_allocated s) (total_freed s) (current_used s)
                          (current_free s) (alloc_count s) (free_count s) 0) w.

(** [initialize_pools]; [pool_at i] is where [make_unique] put pool [i]. *)
Definition initialize_pools (pool_at : nat → Z) (cfg : PoolConfig)
    : list Fixed_Size_Pool.t :=
  (λ i, Fixed_Size_Pool.ctor (pool_at i) (class_size cfg (Z.of_nat i))
                             (alignment cfg)) <$> seq 0 8.

Definition ctor (pool_at : nat → Z) (max_total_memory : Z) (enable_tls : bool)
    (alignment : Z) : t :=
  let cfg :=
    mkConfig (small_block_sizes default_config) max_total_memory alignment
             enable_tls (tls_cache_size default_config)
             (cleanup_interval default_config) (idle_timeout default_config) in
  mk cfg (mkStats 0 0 0 0 0 0 0) (initialize_pools pool_at cfg) false.

(** [(sizeof(Memory_Block_Header) + config_.alignment - 1) & ~(config_.alignment - 1)] *)
Definition header_size (w : World) : Z :=
  align_up sizeof_Memory_Block_Header (alignment (config_ (pool w))).

Definition allocate (answer size : Z) (w : World) : option (Z * World) :=
  if shutdown_ (pool w) || (size =? 0) then Some (nullptr, w)
  else
    let w := set_stats incr_alloc_count w in
    let pool_index := find_pool_index (config_ (pool w)) size in
    if pool_index >=? 0 then
      let class := class_size (config_ (pool w)) pool_index in
      let '(ptr, w) := allocate_from_tls pool_index w in
      if negb (ptr =? nullptr) then
        Some (ptr,
              set_stats (add_current_used class)
                (set_stats (add_total_allocated class) w))
      else
        match pools_ (pool w) !! Z.to_nat pool_index with
        | None => None
        | Some fp =>
            let '(ptr, fp', h') := Fixed_Size_Pool.allocate answer fp (heap w) in
            let w := set_heap h' (set_pools <[Z.to_nat pool_index := fp']> w) in
            if negb (ptr =? nullptr) then
              Some (ptr,
                    set_stats (sub_current_free class)
                      (set_stats (add_current_used class)
                         (set_stats (add_total_allocated class) w)))
            else Some (nullptr, w)
        end
    else
      let '(ptr, h') := std_malloc answer size (heap w) in
      let w := set_heap h' w in
      if negb (ptr =? nullptr) then
        Some (ptr,
              set_stats (add_current_used size)
                (set_stats (add_total_allocated size) w))
      else Some (ptr, w).

Definition deallocate (ptr : Z) (w : World) : option World :=
  if ptr =? nullptr then Some w
  else
    let w := set_stats incr_free_count w in
    match headers (heap w) !! (ptr - header_size w) with
    | None => None
    | Some header =>
        let release_to_platform :=
          let size := Memory_Block_Header.size header in
          h' ← std_free (ptr - header_size w) (heap w);
          Some (set_stats (sub_current_used size)
                  (set_stats (add_total_freed size) (set_heap h' w))) in
        if negb (Memory_Block_Header.pool_ptr header =? nullptr) then
          let pool_index :=
            find_pool_index (config_ (pool w))
                            (Memory_Block_Header.block_size header) in
          match (if pool_index >=? 0
                 then pools_ (pool w) !! Z.to_nat pool_index
                 else None) with
          | Some fp =>
              if Memory_Block_Header.pool_ptr header =? Fixed_Size_Pool.this fp then
                let '(accepted, w) := return_to_tls pool_index ptr w in
                if accepted then Some w
                else
                  let class := class_size (config_ (pool w)) pool_index in
                  '(fp', h') ← Fixed_Size_Pool.deallocate ptr fp (heap w);
                  Some (set_stats (add_current_free class)
                          (set_stats (sub_current_used class)
                             (set_stats (add_total_freed class)
                                (set_heap h'
                                   (set_pools <[Z.to_nat pool_index := fp']> w)))))
              else release_to_platform
          | None =>
              if pool_index >=? 0 then None else release_to_platform
          end
        else release_to_platform
    end.

Definition reallocate (answer ptr new_size : Z) (w : World) : option (Z * World) :=
  if ptr =? nullptr then allocate answer new_size w
  else
    match headers (heap w) !! (ptr - header_size w) with
    | None => None
    | Some header =>
        let old_size := Memory_Block_Header.size header in
        if (new_size <=? old_size) && (new_size >? old_size / 2) then Some (ptr, w)
        else
          '(new_ptr, w) ← allocate answer new_size w;
          if new_ptr =? nullptr then Some (nullptr, w)
          else
            let copy_size := if old_size <? new_size then old_size else new_size in
            let w := set_heap (std_memcpy new_ptr ptr copy_size (heap w)) w in
            w ← deallocate ptr w;
            Some (new_ptr, w)
    end.

End Memory_Pool.

(** ** Memory_Pool_RAII *)

(** How a constructor call ends: with an object, or with
    [std::runtime_error(what)] thrown. *)
Inductive completion (A : Type) : Type :=
  | Returned (a : A)
  | Thrown_runtime_error (what : string).
Arguments Returned {A} a.
Arguments Thrown_runtime_error {A} what.

Module Memory_Pool_RAII.

(** [pool_] is a reference to the pool of the [World] the handle lives in. *)
Record t : Type := mk {
  memory_ptr_ : Z;
  size_ : Z
}.

Definition ctor (answer size : Z) (w : Memory_Pool.World)
    : option (completion t * Memory_Pool.World) :=
  '(p, w) ← Memory_Pool.allocate answer size w;
  if p =? nullptr then Some (Thrown_runtime_error "Memory allocation failed", w)
  else Some (Returned (mk p size), w).

Definition dtor (r : t) (w : Memory_Pool.World) : option Memory_Pool.World :=
  if negb (memory_ptr_ r =? nullptr) then Memory_Pool.deallocate (memory_ptr_ r) w
  else Some w.

Definition get (r : t) : Z := memory_ptr_ r.
Definition size (r : t) : Z := size_ r.
Definition is_valid (r : t) : bool := negb (memory_ptr_ r =? nullptr).

End Memory_Pool_RAII.

(** ** Views of the state used in the statements *)

Import Memory_Pool.

(** The world right after [Memory_Pool pool(max_total_memory, enable_tls,
    alignment)] on a thread that has no cache yet. *)
Definition fresh (pool_at : nat → Z) (max_total_memory : Z) (enable_tls : bool)
    (alignment : Z) (h : Heap) : World :=
  mkWorld (ctor pool_at max_total_memory enable_tls alignment) None h.

(** The calling thread's stash for class [i]; empty while the cache does not
    exist. *)
Definition tls_slot (w : World) (i : Z) : list Z :=
  match tls_cache w with
  | None => []
  | Some c => Thread_Local_Cache.cache c !!! Z.to_nat i
  end.

(** Every address stashed in the thread's cache, and every address on a
    pool's free list. *)
Definition tls_cached (w : World) : list Z :=
  match tls_cache w with
  | None => []
  | Some c => mjoin (Thread_Local_Cache.cache c)
  end.

Definition pool_free (w : World) : list Z :=
  mjoin (Fixed_Size_Pool.free_blocks_ <$> pools_ (pool w)).

(** ** Concrete inputs *)

Definition empty_heap : Heap := mkHeap ∅ ∅ ∅.

Definition sample_pool_at (i : nat) : Z := 1000 + 56 * Z.of_nat i.

(** [Memory_Pool pool;] with the default arguments. *)
Definition sample_world : World :=
  fresh sample_pool_at (1024 * 1024 * 1024) true 8 empty_heap.

(** The same with the thread-local fast path switched off. *)
Definition sample_world_no_tls : World :=
  fresh sample_pool_at (1024 * 1024 * 1024) false 8 empty_heap.

Definition world_of (o : option (Z * World)) : World :=
  match o with
  | Some (_, w) => w
  | None => sample_world
  end.

(** [sample_world] after [pool.allocate(64)], the platform having answered
    [4096]: the block is at [4128]. *)
Definition sample_world_1 : World := world_of (allocate 4096 64 sample_world).

(** The round trip of the first testable property at one input: [allocate]
    then [deallocate] of the returned address brings [current_used] back and
    adds one to each counter. *)
Definition round_trip_restores (answer size : Z) (w0 : World) : Prop :=
  ∃ p w1 w2,
    allocate answer size w0 = Some (p, w1) ∧
    deallocate p w1 = Some w2 ∧
    current_used (stats_ (pool w2)) = current_used (stats_ (pool w0)) ∧
    alloc_count (stats_ (pool w2)) = wrap (alloc_count (stats_ (pool w0)) + 1) ∧
    free_count (stats_ (pool w2)) = wrap (free_count (stats_ (pool w0)) + 1).

(** No stash and no free list holds [nullptr]: [return_to_tls] and
    [Fixed_Size_Pool::deallocate] both turn it away. *)
Definition no_null_cached (w : World) : Prop :=
  (nullptr ∉ tls_cached w) ∧ (nullptr ∉ pool_free w).

(** [sample_world_1] after a request of 200 bytes that the platform could not
    serve. *)
Definition sample_world_failed : World :=
  world_of (allocate nullptr 200 sample_world_1).

(** The [n] bytes at [p]: [None] where the byte is indeterminate. *)
Definition read_bytes (h : Heap) (p n : Z) : list (option byte) :=
  (λ k : nat, data h !! (p + Z.of_nat k)) <$> seq 0 (Z.to_nat n).

(** Every pool was built with the pool-wide alignment ([initialize_pools]). *)
Definition pools_aligned (w : World) : Prop :=
  Forall (λ fp, Fixed_Size_Pool.alignment_ fp = alignment (config_ (pool w)))
         (pools_ (pool w)).

(** [ptr] is a block of one of the pools, with header [hdr], that a caller
    holds: it sits in no stash and on no free list, and the platform block it
    was carved from is live and extends past the header. *)
Definition handed_out (w : World) (ptr : Z) (hdr : Memory_Block_Header.t) : Prop :=
  ptr ≠ nullptr ∧
  headers (heap w) !! (ptr - header_size w) = Some hdr ∧
  Memory_Block_Header.pool_ptr hdr ≠ nullptr ∧
  0 ≤ find_pool_index (config_ (pool w)) (Memory_Block_Header.block_size hdr) ∧
  (Fixed_Size_Pool.this <$>
     pools_ (pool w)
       !! Z.to_nat (find_pool_index (config_ (pool w))
                      (Memory_Block_Header.block_size hdr)))
    = Some (Memory_Block_Header.pool_ptr hdr) ∧
  (ptr ∉ tls_cached w) ∧
  (ptr ∉ pool_free w) ∧
  (∃ sz, live (heap w) !! (ptr - header_size w) = Some sz ∧ header_size w < sz).

(** What the platform guarantees of a successful [std::malloc]: the answer
    does not point into a block that is still live. *)
Definition fresh_answer (answer : Z) (w : World) : Prop :=
  0 ≤ answer ∧
  map_Forall (λ b sz, ¬ (b ≤ answer < b + sz)) (live (heap w)).

(** The fourth testable property read with the requested size: a block
    requested with [old_size] bytes and reallocated to [new_size] bytes comes
    back at the same address. *)
Definition reallocate_in_place (answer1 old_size answer2 new_size : Z)
    (w0 : World) : Prop :=
  ∃ p w1 w2,
    allocate answer1 old_size w0 = Some (p, w1) ∧
    reallocate answer2 p new_size w1 = Some (p, w2).

(** The three counters of a pool agree: blocks in use plus blocks free are the
    blocks ever carved (as [size_t] values). *)
Definition counters_consistent (p : Fixed_Size_Pool.t) : Prop :=
  wrap (Fixed_Size_Pool.current_used_ p + Fixed_Size_Pool.current_free_ p)
  = wrap (Fixed_Size_Pool.total_allocated_ p).

(** No stash of the thread's cache is longer than the cache's capacity. *)
Definition tls_bounded (w : World) : Prop :=
  0 ≤ tls_cache_size (config_ (pool w)) ∧
  match tls_cache w with
  | None => True
  | Some c =>
      0 ≤ Thread_Local_Cache.cache_size c ∧
      Forall (λ v, Z.of_nat (length v) ≤ Thread_Local_Cache.cache_size c)
             (Thread_Local_Cache.cache c)
  end.

(** [sample_world_no_tls] after [p = allocate(64)] and [deallocate(p)]: the
    block at [4128] is on the free list of the 64-byte pool. *)
Definition sample_world_no_tls_freed : World :=
  match deallocate 4128 (world_of (allocate 4096 64 sample_world_no_tls)) with
  | Some w => w
  | None => sample_world_no_tls
  end.

(** [sample_world_1] after a second request, of 200 bytes, served by the
    platform at [8192]: the caller holds the blocks at [4128] and [8224]. *)
Definition sample_world_2 : World := world_of (allocate 8192 200 sample_world_1).

(** [sample_world_2] after [deallocate(8224)]. *)
Definition sample_world_2_freed : World :=
  match deallocate 8224 sample_world_2 with
  | Some w => w
  | None => sample_world_2
  end.

(** A newly constructed pool on a thread whose [thread_local] cache is
    [tls]: [None] when the thread has made no cache yet, [Some c] when an
    earlier pool on the thread already made it (the cache is a static of the
    function, shared by every pool of the thread). *)
Definition new_pool_world (pool_at : nat → Z) (max_total_memory : Z)
    (enable_tls : bool) (alignment : Z) (tls : option Thread_Local_Cache.t)
    (h : Heap) : World :=
  mkWorld (ctor pool_at max_total_memory enable_tls alignment) tls h.

(** A [Thread_Local_Cache] as the C++ object is: an array of eight stashes
    and the positive capacity its creator gave it. *)
Definition cache_well_formed (c : Thread_Local_Cache.t) : Prop :=
  length (Thread_Local_Cache.cache c) = 8%nat ∧
  0 < Thread_Local_Cache.cache_size c.

(** A cache left by an earlier pool, holding one 16-byte block. *)
Definition sample_stashed_cache : Thread_Local_Cache.t :=
  Thread_Local_Cache.mk [[]; [9000]; []; []; []; []; []; []] 16.

(** * Properties *)

(** ** Arithmetic *)

Lemma wrap_range z : 0 ≤ wrap z < size_t_modulus.
Proof. unfold wrap. apply Z.mod_pos_bound. reflexivity. Qed.

Lemma wrap_small z : 0 ≤ z < size_t_modulus → wrap z = z.
Proof. intros H. unfold wrap. by apply Z.mod_small. Qed.

Lemma align_up_nonneg n a : 0 ≤ align_up n a.
Proof. unfold align_up. apply Z.land_nonneg. left. apply wrap_range. Qed.

(** ** Classification *)

Lemma find_pool_index_cases cfg size :
  small_block_sizes cfg = small_block_sizes default_config →
  let r := find_pool_index cfg size in
  (size ≤ 8 ∧ r = 0) ∨ (8 < size ≤ 16 ∧ r = 1) ∨ (16 < size ≤ 32 ∧ r = 2) ∨
  (32 < size ≤ 64 ∧ r = 3) ∨ (64 < size ≤ 128 ∧ r = 4) ∨
  (128 < size ≤ 256 ∧ r = 5) ∨ (256 < size ≤ 512 ∧ r = 6) ∨
  (512 < size ≤ 1024 ∧ r = 7) ∨ (1024 < size ∧ r = -1).
Proof.
  intros Hs. unfold find_pool_index, find_pool_index_loop, class_size.
  rewrite Hs. cbv -[Z.leb Z.le Z.lt].
  repeat (match goal with |- context [?a <=? ?b] => destruct (Z.leb_spec a b) end);
    lia.
Qed.

Lemma find_pool_index_loop_range cfg size n i :
  let r := find_pool_index_loop cfg size n i in
  r = -1 ∨ i ≤ r < i + Z.of_nat n.
Proof.
  revert i. induction n as [|n IH]; intros i; simpl; [by left|].
  destruct (size <=? class_size cfg i); [right; lia|].
  destruct (IH (i + 1)) as [?|?]; [by left|right; lia].
Qed.

Lemma find_pool_index_range cfg size :
  find_pool_index cfg size = -1 ∨ 0 ≤ find_pool_index cfg size < 8.
Proof. apply (find_pool_index_loop_range cfg size 8 0). Qed.

(** C7. For every size, [find_pool_index] returns the index of the smallest
    size class whose boundary is at least the size, and it returns [-1] exactly
    when the size exceeds the largest boundary, 1024. *)
Theorem find_pool_index_smallest_class pool_at max_total_memory enable_tls alignment size :
  let cfg := config_ (ctor pool_at max_total_memory enable_tls alignment) in
  let r := find_pool_index cfg size in
  (r = -1 ↔ 1024 < size) ∧
  (r ≠ -1 →
     0 ≤ r < 8 ∧ size ≤ class_size cfg r ∧
     ∀ j, 0 ≤ j < 8 → size ≤ class_size cfg j →
          r ≤ j ∧ class_size cfg r ≤ class_size cfg j).
Proof.
  intros cfg r.
  pose proof (find_pool_index_cases cfg size eq_refl) as H.
  cbv zeta in H. change (find_pool_index cfg size) with r in H.
  clearbody r.
  split.
  - lia.
  - intros Hr.
    assert (Hj : ∀ j, 0 ≤ j < 8 →
              j = 0 ∨ j = 1 ∨ j = 2 ∨ j = 3 ∨ j = 4 ∨ j = 5 ∨ j = 6 ∨ j = 7) by lia.
    destruct H as [[? ->]|[[? ->]|[[? ->]|[[? ->]|[[? ->]|[[? ->]|[[? ->]|[[? ->]|[? ?]]]]]]]]];
      try lia.
    all: split; [lia|]; split; [cbv -[Z.le Z.lt]; lia|].
    all: intros j Hj8 Hle; destruct (Hj j Hj8) as [->|[->|[->|[->|[->|[->|[->| ->]]]]]]].
    all: cbv -[Z.le Z.lt] in Hle |- *; lia.
Qed.

(** ** Rejected requests *)

(** C6. [allocate(0)], and [allocate] of any size once the pool is shut down,
    return [nullptr] at once: the call is a normal return that leaves the
    whole state as it was. *)
Theorem allocate_zero_or_shutdown answer size w :
  size = 0 ∨ shutdown_ (pool w) = true →
  allocate answer size w = Some (nullptr, w).
Proof.
  intros H. unfold allocate.
  destruct H as [-> | ->]; [|done].
  by rewrite orb_true_r.
Qed.

Lemma allocate_zero_or_shutdown_witness :
  allocate 4096 0 sample_world = Some (nullptr, sample_world) ∧
  allocate 4096 64 (set_shutdown true sample_world)
    = Some (nullptr, set_shutdown true sample_world).
Proof.
  split.
  - apply allocate_zero_or_shutdown. left. reflexivity.
  - apply allocate_zero_or_shutdown. right. reflexivity.
Defined.

(** ** The calling thread's cache *)

Lemma replicate_nil_lookup_total (n : nat) : replicate 8 ([] : list Z) !!! n = [].
Proof. do 8 (destruct n as [|n]; [reflexivity|]). reflexivity. Qed.

Lemma get_tls_cache_pool w : pool (get_tls_cache w).2 = pool w.
Proof.
  unfold get_tls_cache.
  destruct (enable_tls _); [|done]. by destruct (tls_cache w).
Qed.

Lemma get_tls_cache_heap w : heap (get_tls_cache w).2 = heap w.
Proof.
  unfold get_tls_cache.
  destruct (enable_tls _); [|done]. by destruct (tls_cache w).
Qed.

Lemma get_tls_cache_slot w i : tls_slot (get_tls_cache w).2 i = tls_slot w i.
Proof.
  unfold get_tls_cache, tls_slot.
  destruct (enable_tls _); simpl; [|done].
  destruct (tls_cache w) eqn:E; simpl; [by rewrite E|].
  by rewrite replicate_nil_lookup_total.
Qed.

Lemma allocate_from_tls_miss i w :
  enable_tls (config_ (pool w)) = false ∨ tls_slot w i = [] →
  allocate_from_tls i w = (nullptr, (get_tls_cache w).2).
Proof.
  unfold allocate_from_tls, get_tls_cache, tls_slot.
  destruct (enable_tls (config_ (pool w))); simpl.
  - intros [?|H]; [done|].
    destruct (tls_cache w) as [c|]; simpl.
    + rewrite H. simpl. by destruct (_ || _).
    + rewrite replicate_nil_lookup_total. simpl. by destruct (_ || _).
  - done.
Qed.

Lemma return_to_tls_pool i ptr w : pool (return_to_tls i ptr w).2 = pool w.
Proof.
  unfold return_to_tls.
  pose proof (get_tls_cache_pool w) as H.
  destruct (get_tls_cache w) as [[c|] w1]; simpl in *; [|done].
  destruct (_ || _); [done|]. by destruct (Z.of_nat _ <? _).
Qed.

Lemma return_to_tls_heap i ptr w : heap (return_to_tls i ptr w).2 = heap w.
Proof.
  unfold return_to_tls.
  pose proof (get_tls_cache_heap w) as H.
  destruct (get_tls_cache w) as [[c|] w1]; simpl in *; [|done].
  destruct (_ || _); [done|]. by destruct (Z.of_nat _ <? _).
Qed.

(** ** Deallocation into the thread's cache *)

Lemma deallocate_pool_block ptr w hdr fp :
  ptr ≠ nullptr →
  headers (heap w) !! (ptr - header_size w) = Some hdr →
  Memory_Block_Header.pool_ptr hdr ≠ nullptr →
  let i := find_pool_index (config_ (pool w)) (Memory_Block_Header.block_size hdr) in
  0 ≤ i →
  pools_ (pool w) !! Z.to_nat i = Some fp →
  Memory_Block_Header.pool_ptr hdr = Fixed_Size_Pool.this fp →
  deallocate ptr w =
    let '(accepted, w1) := return_to_tls i ptr (set_stats incr_free_count w) in
    if accepted then Some w1
    else
      let class := class_size (config_ (pool w1)) i in
      '(fp', h') ← Fixed_Size_Pool.deallocate ptr fp (heap w1);
      Some (set_stats (add_current_free class)
              (set_stats (sub_current_used class)
                 (set_stats (add_total_freed class)
                    (set_heap h' (set_pools <[Z.to_nat i := fp']> w1))))).
Proof.
  intros Hp Hh Hn i Hi Hfp Ho. unfold deallocate.
  apply Z.eqb_neq in Hp. rewrite Hp.
  change (heap (set_stats incr_free_count w)) with (heap w).
  change (header_size (set_stats incr_free_count w)) with (header_size w).
  rewrite Hh.
  apply Z.eqb_neq in Hn. rewrite Hn. simpl negb. cbv iota.
  change (config_ (pool (set_stats incr_free_count w))) with (config_ (pool w)).
  fold i.
  assert ((i >=? 0) = true) as -> by lia.
  change (pools_ (pool (set_stats incr_free_count w))) with (pools_ (pool w)).
  rewrite Hfp.
  assert ((Memory_Block_Header.pool_ptr hdr =? Fixed_Size_Pool.this fp) = true) as ->
    by lia.
  done.
Qed.

(** C10. When the thread's cache accepts a pool-owned block handed to
    [deallocate], the call leaves the heap (so the block's header, [in_use]
    included) unchanged, leaves every pool (free lists and counters)
    unchanged, and changes no statistic but [free_count], which it
    increments. *)
Theorem deallocate_into_tls_frame ptr w hdr i fp :
  ptr ≠ nullptr →
  headers (heap w) !! (ptr - header_size w) = Some hdr →
  Memory_Block_Header.pool_ptr hdr ≠ nullptr →
  find_pool_index (config_ (pool w)) (Memory_Block_Header.block_size hdr) = i →
  0 ≤ i →
  pools_ (pool w) !! Z.to_nat i = Some fp →
  Memory_Block_Header.pool_ptr hdr = Fixed_Size_Pool.this fp →
  (return_to_tls i ptr (set_stats incr_free_count w)).1 = true →
  ∃ w',
    deallocate ptr w = Some w' ∧
    heap w' = heap w ∧
    headers (heap w') !! (ptr - header_size w') = Some hdr ∧
    pools_ (pool w') = pools_ (pool w) ∧
    stats_ (pool w') = incr_free_count (stats_ (pool w)) ∧
    config_ (pool w') = config_ (pool w) ∧
    shutdown_ (pool w') = shutdown_ (pool w).
Proof.
  intros Hp Hh Hn Hi Hi0 Hfp Ho Hacc. subst i.
  rewrite (deallocate_pool_block ptr w hdr fp) by done.
  pose proof (return_to_tls_pool
                (find_pool_index (config_ (pool w)) (Memory_Block_Header.block_size hdr))
                ptr (set_stats incr_free_count w)) as HP.
  pose proof (return_to_tls_heap
                (find_pool_index (config_ (pool w)) (Memory_Block_Header.block_size hdr))
                ptr (set_stats incr_free_count w)) as HH.
  destruct (return_to_tls _ ptr _) as [acc w1]. simpl in *. subst acc.
  exists w1. unfold header_size. rewrite HP, HH. simpl. done.
Qed.

Lemma deallocate_into_tls_frame_witness :
  ∃ w',
    deallocate 4128 sample_world_1 = Some w' ∧
    heap w' = heap sample_world_1 ∧
    headers (heap w') !! (4128 - header_size w')
      = Some (Memory_Block_Header.mk 64 64 true (sample_pool_at 3)) ∧
    pools_ (pool w') = pools_ (pool sample_world_1) ∧
    stats_ (pool w') = incr_free_count (stats_ (pool sample_world_1)) ∧
    config_ (pool w') = config_ (pool sample_world_1) ∧
    shutdown_ (pool w') = shutdown_ (pool sample_world_1).
Proof.
  apply (deallocate_into_tls_frame 4128 sample_world_1
           (Memory_Block_Header.mk 64 64 true (sample_pool_at 3)) 3
           (Fixed_Size_Pool.mk (sample_pool_at 3) 64 8 [] 1 0 1)).
  - unfold nullptr. lia.
  - reflexivity.
  - intros H. vm_compute in H. discriminate H.
  - reflexivity.
  - lia.
  - reflexivity.
  - reflexivity.
  - reflexivity.
Defined.

(** ** The slow path of [allocate] on a fresh pool *)

Lemma fresh_pool_lookup pool_at max_total_memory enable_tls alignment (i : Z) :
  0 ≤ i < 8 →
  pools_ (ctor pool_at max_total_memory enable_tls alignment) !! Z.to_nat i
  = Some (Fixed_Size_Pool.ctor (pool_at (Z.to_nat i))
            (class_size default_config i) alignment).
Proof.
  intros Hi.
  assert (i = 0 ∨ i = 1 ∨ i = 2 ∨ i = 3 ∨ i = 4 ∨ i = 5 ∨ i = 6 ∨ i = 7)
    as [->|[->|[->|[->|[->|[->|[->| ->]]]]]]] by lia; reflexivity.
Qed.

Lemma allocate_fresh_small pool_at max_total_memory enable_tls alignment h answer size i :
  size ≠ 0 →
  find_pool_index default_config size = i →
  0 ≤ i →
  0 < answer →
  let w0 := fresh pool_at max_total_memory enable_tls alignment h in
  let class := class_size default_config i in
  let fp := Fixed_Size_Pool.ctor (pool_at (Z.to_nat i)) class alignment in
  ∃ w1,
    allocate answer size w0 = Some (answer + header_size w0, w1) ∧
    answer + header_size w0 ≠ nullptr ∧
    config_ (pool w1) = config_ (pool w0) ∧
    shutdown_ (pool w1) = false ∧
    stats_ (pool w1) = mkStats (wrap class) 0 (wrap class) (wrap (- class)) 1 0 0 ∧
    pools_ (pool w1) =
      <[Z.to_nat i :=
          Fixed_Size_Pool.mk (pool_at (Z.to_nat i)) (align_up class alignment)
            alignment [] 1 0 1]> (pools_ (pool w0)) ∧
    tls_cache w1 =
      (if enable_tls then Some (Thread_Local_Cache.mk (replicate 8 []) 16) else None) ∧
    heap w1 =
      set_headers
        <[answer := Memory_Block_Header.mk (align_up class alignment)
                      (align_up class alignment) true (pool_at (Z.to_nat i))]>
        (set_live
           <[answer := wrap (header_size w0 + align_up class alignment)]> h).
Proof.
  intros Hs Hi Hi0 Ha w0 class fp.
  assert (Hi8 : 0 ≤ i < 8).
  { destruct (find_pool_index_range default_config size); lia. }
  assert (Hhs : 0 ≤ header_size w0) by apply align_up_nonneg.
  unfold allocate.
  change (shutdown_ (pool w0)) with false.
  apply Z.eqb_neq in Hs. rewrite Hs. simpl orb. cbv iota.
  change (find_pool_index _ size) with (find_pool_index default_config size).
  rewrite Hi.
  assert ((i >=? 0) = true) as -> by lia.
  rewrite allocate_from_tls_miss by (right; reflexivity).
  change (nullptr =? nullptr) with true. simpl negb. cbv iota.
  rewrite get_tls_cache_pool.
  change (pools_ (pool (set_stats incr_alloc_count w0)))
    with (pools_ (ctor pool_at max_total_memory enable_tls alignment)).
  rewrite fresh_pool_lookup by done.
  unfold Fixed_Size_Pool.allocate, std_malloc.
  change (Fixed_Size_Pool.free_blocks_ (Fixed_Size_Pool.ctor _ _ _)) with (@nil Z).
  cbv iota.
  assert ((answer =? nullptr) = false) as Hnz by (unfold nullptr; lia).
  rewrite Hnz. cbv iota. rewrite Hnz.
  change (Fixed_Size_Pool.header_size (Fixed_Size_Pool.ctor _ _ alignment))
    with (header_size w0).
  assert ((answer + header_size w0 =? nullptr) = false) as ->
    by (unfold nullptr; lia).
  simpl negb. cbv iota.
  eexists. split; [reflexivity|].
  split; [unfold nullptr; lia|].
  unfold get_tls_cache.
  destruct enable_tls; simpl; repeat split; reflexivity.
Qed.
Lemma small_class_cases size :
  0 < size ≤ 1024 →
  let i := find_pool_index default_config size in
  (i = 0 ∨ i = 1 ∨ i = 2 ∨ i = 3 ∨ i = 4 ∨ i = 5 ∨ i = 6 ∨ i = 7).
Proof.
  intros H. pose proof (find_pool_index_cases default_config size eq_refl) as C.
  simpl in *. lia.
Qed.

(** C9. On a fresh pool the first successful small allocation is carved from
    the platform allocator, and [current_free], still zero, is decremented by
    the class size: it wraps to [2^64 - class], within 1024 of the largest
    [size_t]. *)
Theorem first_allocation_wraps_current_free
    pool_at max_total_memory enable_tls alignment h answer size :
  0 < size ≤ 1024 →
  0 < answer →
  let w0 := fresh pool_at max_total_memory enable_tls alignment h in
  let i := find_pool_index (config_ (pool w0)) size in
  let class := class_size (config_ (pool w0)) i in
  ∃ w1,
    allocate answer size w0 = Some (answer + header_size w0, w1) ∧
    answer + header_size w0 ≠ nullptr ∧
    live (heap w1) !! answer
      = Some (wrap (header_size w0 + align_up class alignment)) ∧
    Fixed_Size_Pool.total_allocated_ <$> pools_ (pool w1) !! Z.to_nat i = Some 1 ∧
    current_free (stats_ (pool w0)) = 0 ∧
    current_free (stats_ (pool w1)) = size_t_modulus - class ∧
    size_t_modulus - 1024 ≤ current_free (stats_ (pool w1)) < size_t_modulus.
Proof.
  intros Hs Ha w0 i class.
  change (config_ (pool w0)) with
    (mkConfig (small_block_sizes default_config) max_total_memory alignment
              enable_tls 16 30 300) in i.
  assert (Hi : find_pool_index default_config size = i) by reflexivity.
  pose proof (small_class_cases size Hs) as Hc. cbv zeta in Hc. rewrite Hi in Hc.
  destruct (allocate_fresh_small pool_at max_total_memory enable_tls alignment
              h answer size i) as (w1 & E & Hp & Hcfg & Hsh & Hst & Hpl & Htls & Hh);
    [lia | done | lia | done |].
  exists w1. split; [exact E|]. split; [exact Hp|].
  rewrite Hh, Hst, Hpl. simpl.
  split; [apply lookup_insert_eq|].
  split.
  { rewrite list_lookup_insert_eq; [done|].
    destruct Hc as [->|[->|[->|[->|[->|[->|[->| ->]]]]]]]; simpl; lia. }
  split; [done|].
  subst class. clearbody i.
  destruct Hc as [->|[->|[->|[->|[->|[->|[->| ->]]]]]]]; vm_compute; done.
Qed.

Lemma first_allocation_wraps_current_free_witness :
  ∃ w1,
    allocate 4096 64 sample_world = Some (4096 + header_size sample_world, w1) ∧
    4096 + header_size sample_world ≠ nullptr ∧
    live (heap w1) !! 4096 = Some (wrap (header_size sample_world + align_up 64 8)) ∧
    Fixed_Size_Pool.total_allocated_ <$> pools_ (pool w1) !! 3%nat = Some 1 ∧
    current_free (stats_ (pool sample_world)) = 0 ∧
    current_free (stats_ (pool w1)) = size_t_modulus - 64 ∧
    size_t_modulus - 1024 ≤ current_free (stats_ (pool w1)) < size_t_modulus.
Proof.
  apply (first_allocation_wraps_current_free sample_pool_at (1024 * 1024 * 1024)
           true 8 empty_heap 4096 64); lia.
Defined.

(** ** Allocate, then deallocate *)

Lemma align_up_class_8 i :
  0 ≤ i < 8 →
  align_up (class_size default_config i) 8 = class_size default_config i.
Proof.
  intros Hi.
  assert (i = 0 ∨ i = 1 ∨ i = 2 ∨ i = 3 ∨ i = 4 ∨ i = 5 ∨ i = 6 ∨ i = 7)
    as [->|[->|[->|[->|[->|[->|[->| ->]]]]]]] by lia; reflexivity.
Qed.

Lemma find_pool_index_class i :
  0 ≤ i < 8 →
  find_pool_index default_config (class_size default_config i) = i.
Proof.
  intros Hi.
  assert (i = 0 ∨ i = 1 ∨ i = 2 ∨ i = 3 ∨ i = 4 ∨ i = 5 ∨ i = 6 ∨ i = 7)
    as [->|[->|[->|[->|[->|[->|[->| ->]]]]]]] by lia; reflexivity.
Qed.

Lemma class_size_range i :
  0 ≤ i < 8 → 8 ≤ class_size default_config i ≤ 1024.
Proof.
  intros Hi.
  assert (i = 0 ∨ i = 1 ∨ i = 2 ∨ i = 3 ∨ i = 4 ∨ i = 5 ∨ i = 6 ∨ i = 7)
    as [->|[->|[->|[->|[->|[->|[->| ->]]]]]]] by lia; vm_compute; split; discriminate.
Qed.

Lemma return_to_tls_disabled i ptr w :
  enable_tls (config_ (pool w)) = false → return_to_tls i ptr w = (false, w).
Proof. intros H. unfold return_to_tls, get_tls_cache. by rewrite H. Qed.

Lemma return_to_tls_accepts i ptr w c :
  enable_tls (config_ (pool w)) = true →
  tls_cache w = Some c →
  0 ≤ i < 8 →
  ptr ≠ nullptr →
  Z.of_nat (length (Thread_Local_Cache.cache c !!! Z.to_nat i))
    < Thread_Local_Cache.cache_size c →
  return_to_tls i ptr w =
    (true,
     set_tls (Some (Thread_Local_Cache.set_slot (Z.to_nat i)
                      (Thread_Local_Cache.cache c !!! Z.to_nat i ++ [ptr]) c)) w).
Proof.
  intros He Hc Hi Hp Hl. unfold return_to_tls, get_tls_cache.
  rewrite He, Hc. simpl.
  apply Z.eqb_neq in Hp. rewrite Hp.
  assert ((i <? 0) = false) as -> by lia.
  assert ((i >=? 8) = false) as -> by lia.
  simpl. by apply Z.ltb_lt in Hl as ->.
Qed.

Lemma align_up_class_small_alignment al i :
  al = 1 ∨ al = 2 ∨ al = 4 ∨ al = 8 →
  0 ≤ i < 8 →
  align_up (class_size default_config i) al = class_size default_config i ∧
  align_up sizeof_Memory_Block_Header al = 32.
Proof.
  intros Hal Hi.
  assert (i = 0 ∨ i = 1 ∨ i = 2 ∨ i = 3 ∨ i = 4 ∨ i = 5 ∨ i = 6 ∨ i = 7)
    as [->|[->|[->|[->|[->|[->|[->| ->]]]]]]] by lia;
    destruct Hal as [->|[->|[->| ->]]]; split; reflexivity.
Qed.

Lemma allocate_new_pool_small
    pool_at max_total_memory enable_tls alignment tls h answer size i :
  size ≠ 0 →
  find_pool_index default_config size = i →
  0 ≤ i →
  0 < answer →
  let w0 := new_pool_world pool_at max_total_memory enable_tls alignment tls h in
  enable_tls = false ∨ tls_slot w0 i = [] →
  let class := class_size default_config i in
  ∃ w1,
    allocate answer size w0 = Some (answer + header_size w0, w1) ∧
    answer + header_size w0 ≠ nullptr ∧
    config_ (pool w1) = config_ (pool w0) ∧
    stats_ (pool w1) = mkStats (wrap class) 0 (wrap class) (wrap (- class)) 1 0 0 ∧
    pools_ (pool w1) =
      <[Z.to_nat i :=
          Fixed_Size_Pool.mk (pool_at (Z.to_nat i)) (align_up class alignment)
            alignment [] 1 0 1]> (pools_ (pool w0)) ∧
    tls_cache w1 = tls_cache (get_tls_cache w0).2 ∧
    heap w1 =
      set_headers
        <[answer := Memory_Block_Header.mk (align_up class alignment)
                      (align_up class alignment) true (pool_at (Z.to_nat i))]>
        (set_live
           <[answer := wrap (header_size w0 + align_up class alignment)]> h).
Proof.
  intros Hs Hi Hi0 Ha w0 Hmiss class.
  assert (Hi8 : 0 ≤ i < 8).
  { destruct (find_pool_index_range default_config size); lia. }
  assert (Hhs : 0 ≤ header_size w0) by apply align_up_nonneg.
  unfold allocate.
  change (shutdown_ (pool w0)) with false.
  apply Z.eqb_neq in Hs. rewrite Hs. simpl orb. cbv iota.
  change (find_pool_index _ size) with (find_pool_index default_config size).
  rewrite Hi.
  assert ((i >=? 0) = true) as -> by lia.
  rewrite allocate_from_tls_miss by exact Hmiss.
  change (nullptr =? nullptr) with true. simpl negb. cbv iota.
  rewrite get_tls_cache_pool.
  change (pools_ (pool (set_stats incr_alloc_count w0)))
    with (pools_ (ctor pool_at max_total_memory enable_tls alignment)).
  rewrite fresh_pool_lookup by done.
  unfold Fixed_Size_Pool.allocate, std_malloc.
  change (Fixed_Size_Pool.free_blocks_ (Fixed_Size_Pool.ctor _ _ _)) with (@nil Z).
  cbv iota.
  assert ((answer =? nullptr) = false) as Hnz by (unfold nullptr; lia).
  rewrite Hnz. cbv iota. rewrite Hnz.
  change (Fixed_Size_Pool.header_size (Fixed_Size_Pool.ctor _ _ alignment))
    with (header_size w0).
  assert ((answer + header_size w0 =? nullptr) = false) as ->
    by (unfold nullptr; lia).
  simpl negb. cbv iota.
  eexists. split; [reflexivity|].
  split; [unfold nullptr; lia|].
  unfold get_tls_cache.
  destruct enable_tls; simpl; [destruct tls|]; simpl; repeat split; reflexivity.
Qed.

(** The round trip on a new pool, in full. *)
Lemma round_trip_on_new_pool
    pool_at max_total_memory enable_tls alignment tls h answer size :
  alignment = 1 ∨ alignment = 2 ∨ alignment = 4 ∨ alignment = 8 →
  0 < size ≤ 1024 →
  0 < answer →
  (∀ n, pool_at n ≠ nullptr) →
  let w0 := new_pool_world pool_at max_total_memory enable_tls alignment tls h in
  let i := find_pool_index (config_ (pool w0)) size in
  let class := class_size (config_ (pool w0)) i in
  (enable_tls = true →
   ∀ c, tls = Some c →
        cache_well_formed c ∧ Thread_Local_Cache.cache c !!! Z.to_nat i = []) →
  ∃ p w1 w2,
    allocate answer size w0 = Some (p, w1) ∧
    p ≠ nullptr ∧
    deallocate p w1 = Some w2 ∧
    alloc_count (stats_ (pool w2)) = alloc_count (stats_ (pool w0)) + 1 ∧
    free_count (stats_ (pool w2)) = free_count (stats_ (pool w0)) + 1 ∧
    (if enable_tls then
       tls_slot w2 i = [p] ∧
       stats_ (pool w2) = incr_free_count (stats_ (pool w1)) ∧
       heap w2 = heap w1 ∧
       pools_ (pool w2) = pools_ (pool w1) ∧
       current_used (stats_ (pool w2)) = current_used (stats_ (pool w0)) + class
     else
       tls_cache w2 = tls ∧
       Fixed_Size_Pool.free_blocks_ <$> pools_ (pool w2) !! Z.to_nat i = Some [p] ∧
       Memory_Block_Header.in_use <$> headers (heap w2) !! (p - header_size w2)
         = Some false ∧
       total_freed (stats_ (pool w2)) = total_freed (stats_ (pool w0)) + class ∧
       current_used (stats_ (pool w2)) = current_used (stats_ (pool w0)) ∧
       current_free (stats_ (pool w2)) = current_free (stats_ (pool w0))).
Proof.
  intros Hal Hs Ha Hpool w0 i class Htls.
  change (config_ (pool w0)) with
    (mkConfig (small_block_sizes default_config) max_total_memory alignment
              enable_tls 16 30 300) in i, class.
  assert (Hidef : find_pool_index default_config size = i) by reflexivity.
  assert (Hi8 : 0 ≤ i < 8).
  { pose proof (small_class_cases size Hs) as Hc. cbv zeta in Hc.
    rewrite Hidef in Hc. lia. }
  assert (Hcl : class = class_size default_config i) by reflexivity.
  pose proof (class_size_range i Hi8) as Hcr. rewrite <- Hcl in Hcr.
  destruct (align_up_class_small_alignment alignment i Hal Hi8) as [Hau Hh32].
  assert (Hmiss : enable_tls = false ∨ tls_slot w0 i = []).
  { destruct enable_tls; [right|by left]. unfold tls_slot. simpl.
    destruct tls as [c|]; [|done]. by destruct (Htls eq_refl c eq_refl). }
  destruct (allocate_new_pool_small pool_at max_total_memory enable_tls alignment
              tls h answer size i) as (w1 & E & Hp & Hcfg & Hst & Hpl & Htc & Hh);
    [lia | done | lia | done | exact Hmiss |].
  rewrite Hau in Hpl, Hh. rewrite <- Hcl in Hst, Hpl, Hh.
  fold w0 in E, Hp, Hcfg, Hpl, Htc, Hh.
  assert (Hhs0 : header_size w0 = 32) by exact Hh32.
  rewrite Hhs0 in E, Hp, Hh.
  set (hdr := Memory_Block_Header.mk class class true (pool_at (Z.to_nat i))) in *.
  set (fp := Fixed_Size_Pool.mk (pool_at (Z.to_nat i)) class alignment [] 1 0 1) in *.
  assert (Hhs : header_size w1 = 32) by (unfold header_size; rewrite Hcfg; exact Hh32).
  assert (Hhdr : headers (heap w1) !! (answer + 32 - header_size w1) = Some hdr).
  { rewrite Hhs, Hh. replace (answer + 32 - 32) with answer by lia.
    simpl. apply lookup_insert_eq. }
  assert (Hidx : find_pool_index (config_ (pool w1)) (Memory_Block_Header.block_size hdr) = i).
  { rewrite Hcfg. apply (find_pool_index_class i Hi8). }
  assert (Hfp : pools_ (pool w1) !! Z.to_nat i = Some fp).
  { rewrite Hpl. apply list_lookup_insert_eq. simpl. lia. }
  assert (Hhdr' : headers (heap w1) !! (answer + 32 - Fixed_Size_Pool.header_size fp)
                  = Some hdr).
  { rewrite <- Hhdr, Hhs. unfold Fixed_Size_Pool.header_size. simpl.
    by rewrite Hh32. }
  exists (answer + 32), w1.
  pose proof (deallocate_pool_block (answer + 32) w1 hdr fp Hp Hhdr (Hpool _)) as D.
  cbv zeta in D. rewrite Hidx in D.
  rewrite (D (proj1 Hi8) Hfp eq_refl). clear D.
  destruct enable_tls.
  - assert (Hc : ∃ c, tls_cache w1 = Some c ∧
                      length (Thread_Local_Cache.cache c) = 8%nat ∧
                      0 < Thread_Local_Cache.cache_size c ∧
                      Thread_Local_Cache.cache c !!! Z.to_nat i = []).
    { rewrite Htc. unfold get_tls_cache. simpl.
      destruct tls as [c|]; simpl.
      - exists c. destruct (Htls eq_refl c eq_refl) as [[? ?] ?]. done.
      - eexists. split; [reflexivity|]. simpl.
        rewrite replicate_nil_lookup_total. repeat split; lia. }
    destruct Hc as (c & Hc & Hlen & Hcap & Hslot).
    rewrite (return_to_tls_accepts i _ _ c);
      [|simpl; by rewrite Hcfg|exact Hc|done|done|rewrite Hslot; simpl; lia].
    eexists. split; [done|]. split; [done|]. split; [reflexivity|].
    simpl. rewrite Hst. simpl.
    rewrite (wrap_small class) by (unfold size_t_modulus; lia).
    repeat split; try done.
    unfold tls_slot. simpl. rewrite Hslot.
    apply list_lookup_total_insert_eq. lia.
  - rewrite return_to_tls_disabled by (simpl; by rewrite Hcfg).
    unfold Fixed_Size_Pool.deallocate.
    apply Z.eqb_neq in Hp. rewrite Hp.
    change (heap (set_stats incr_free_count w1)) with (heap w1).
    rewrite Hhdr'. simpl. rewrite Z.eqb_refl. simpl.
    eexists. split; [done|]. split; [by apply Z.eqb_neq|]. split; [reflexivity|].
    simpl. rewrite Hst, Hcfg. simpl.
    change (class_size _ i) with class.
    rewrite ?Z.add_0_l.
    rewrite (wrap_small class) by (unfold size_t_modulus; lia).
    rewrite (Z.sub_diag class).
    split; [done|]. split; [done|].
    split. { rewrite Htc. unfold get_tls_cache. done. }
    split. { rewrite list_lookup_insert_eq; [done|]. rewrite Hpl, length_insert. simpl. lia. }
    split.
    { unfold header_size. simpl. rewrite Hcfg. simpl. rewrite Hh32.
      unfold Fixed_Size_Pool.header_size. simpl. rewrite Hh32.
      by rewrite lookup_insert_eq. }
    split; [done|]. split; [done|].
    unfold wrap. rewrite Zplus_mod_idemp_l. replace (- class + class) with 0 by lia.
    done.
Qed.

(** C1, as the code has it.  Take a new pool with alignment 1, 2, 4 or 8 (8
    is the default), on a thread whose cache holds no block of the size's
    class (it may not exist yet), and a small request that the platform
    serves.  [allocate] followed by [deallocate] of the returned address adds
    exactly one to [alloc_count] and to [free_count].  With the thread-local
    fast path enabled, [deallocate] stashes the block in the thread's cache
    and changes no statistic but [free_count], nor the heap or the pools:
    [current_used] stays raised by the class size.  With it disabled the
    block goes back to its pool, marked not in use, [total_freed] grows by
    the class size and [current_used] and [current_free] are back at their
    values before the calls. *)
Theorem allocate_then_deallocate_statistics
    pool_at max_total_memory enable_tls alignment tls h answer size :
  alignment = 1 ∨ alignment = 2 ∨ alignment = 4 ∨ alignment = 8 →
  0 < size ≤ 1024 →
  0 < answer →
  (∀ n, pool_at n ≠ nullptr) →
  let w0 := new_pool_world pool_at max_total_memory enable_tls alignment tls h in
  let i := find_pool_index (config_ (pool w0)) size in
  let class := class_size (config_ (pool w0)) i in
  (enable_tls = true →
   ∀ c, tls = Some c →
        cache_well_formed c ∧ Thread_Local_Cache.cache c !!! Z.to_nat i = []) →
  ∃ p w1 w2,
    allocate answer size w0 = Some (p, w1) ∧
    p ≠ nullptr ∧
    deallocate p w1 = Some w2 ∧
    alloc_count (stats_ (pool w2)) = alloc_count (stats_ (pool w0)) + 1 ∧
    free_count (stats_ (pool w2)) = free_count (stats_ (pool w0)) + 1 ∧
    (if enable_tls then
       tls_slot w2 i = [p] ∧
       stats_ (pool w2) = incr_free_count (stats_ (pool w1)) ∧
       heap w2 = heap w1 ∧
       pools_ (pool w2) = pools_ (pool w1) ∧
       current_used (stats_ (pool w2)) = current_used (stats_ (pool w0)) + class
     else
       tls_cache w2 = tls ∧
       Fixed_Size_Pool.free_blocks_ <$> pools_ (pool w2) !! Z.to_nat i = Some [p] ∧
       Memory_Block_Header.in_use <$> headers (heap w2) !! (p - header_size w2)
         = Some false ∧
       total_freed (stats_ (pool w2)) = total_freed (stats_ (pool w0)) + class ∧
       current_used (stats_ (pool w2)) = current_used (stats_ (pool w0)) ∧
       current_free (stats_ (pool w2)) = current_free (stats_ (pool w0))).
Proof.
  intros Hal Hs Ha Hpool w0 i class Htls.
  by apply round_trip_on_new_pool.
Qed.

Lemma allocate_then_deallocate_statistics_witness :
  (∃ p w1 w2,
     allocate 4096 64 sample_world = Some (p, w1) ∧
     p ≠ nullptr ∧
     deallocate p w1 = Some w2 ∧
     alloc_count (stats_ (pool w2)) = alloc_count (stats_ (pool sample_world)) + 1 ∧
     free_count (stats_ (pool w2)) = free_count (stats_ (pool sample_world)) + 1 ∧
     tls_slot w2 (find_pool_index (config_ (pool sample_world)) 64) = [p] ∧
     stats_ (pool w2) = incr_free_count (stats_ (pool w1)) ∧
     heap w2 = heap w1 ∧
     pools_ (pool w2) = pools_ (pool w1) ∧
     current_used (stats_ (pool w2))
       = current_used (stats_ (pool sample_world))
         + class_size (config_ (pool sample_world))
             (find_pool_index (config_ (pool sample_world)) 64)) ∧
  (∃ p w1 w2,
     allocate 4096 64
       (new_pool_world sample_pool_at 0 true 8 (Some sample_stashed_cache) empty_heap)
       = Some (p, w1) ∧
     p ≠ nullptr ∧
     deallocate p w1 = Some w2 ∧
     alloc_count (stats_ (pool w2)) = 0 + 1 ∧
     free_count (stats_ (pool w2)) = 0 + 1 ∧
     tls_slot w2 3 = [p] ∧
     stats_ (pool w2) = incr_free_count (stats_ (pool w1)) ∧
     heap w2 = heap w1 ∧
     pools_ (pool w2) = pools_ (pool w1) ∧
     current_used (stats_ (pool w2)) = 0 + 64) ∧
  (∃ p w1 w2,
     allocate 4096 64 (new_pool_world sample_pool_at 0 false 8 None empty_heap)
       = Some (p, w1) ∧
     p ≠ nullptr ∧
     deallocate p w1 = Some w2 ∧
     alloc_count (stats_ (pool w2)) = 0 + 1 ∧
     free_count (stats_ (pool w2)) = 0 + 1 ∧
     tls_cache w2 = None ∧
     Fixed_Size_Pool.free_blocks_ <$> pools_ (pool w2) !! 3%nat = Some [p] ∧
     Memory_Block_Header.in_use <$> headers (heap w2) !! (p - header_size w2)
       = Some false ∧
     total_freed (stats_ (pool w2)) = 0 + 64 ∧
     current_used (stats_ (pool w2)) = 0 ∧
     current_free (stats_ (pool w2)) = 0).
Proof.
  split; [|split].
  - apply (allocate_then_deallocate_statistics sample_pool_at (1024 * 1024 * 1024)
             true 8 None empty_heap 4096 64).
    + by right; right; right.
    + lia.
    + lia.
    + intros n. unfold sample_pool_at, nullptr. lia.
    + intros _ c H. discriminate H.
  - apply (allocate_then_deallocate_statistics sample_pool_at 0
             true 8 (Some sample_stashed_cache) empty_heap 4096 64).
    + by right; right; right.
    + lia.
    + lia.
    + intros n. unfold sample_pool_at, nullptr. lia.
    + intros _ c [= <-]. split; [split; [reflexivity|simpl; lia]|reflexivity].
  - apply (allocate_then_deallocate_statistics sample_pool_at 0
             false 8 None empty_heap 4096 64).
    + by right; right; right.
    + lia.
    + lia.
    + intros n. unfold sample_pool_at, nullptr. lia.
    + intros H. discriminate H.
Defined.

(** With the default configuration the round trip leaves [current_used] at
    64, not at 0. *)
Lemma round_trip_keeps_current_used_raised :
  ¬ round_trip_restores 4096 64 sample_world.
Proof.
  intros (p & w1 & w2 & E1 & E2 & Hcu & _).
  assert (E : allocate 4096 64 sample_world = Some (4128, sample_world_1))
    by reflexivity.
  rewrite E in E1. injection E1 as <- <-.
  assert (D : deallocate 4128 sample_world_1
              = Some (set_tls (Some (Thread_Local_Cache.mk
                                       [[]; []; []; [4128]; []; []; []; []] 16))
                        (set_stats incr_free_count sample_world_1)))
    by reflexivity.
  rewrite D in E2. injection E2 as <-.
  vm_compute in Hcu. discriminate Hcu.
Qed.

(** ** Large requests *)

Lemma allocate_large answer size w :
  shutdown_ (pool w) = false →
  size ≠ 0 →
  find_pool_index (config_ (pool w)) size = -1 →
  ∃ w1,
    allocate answer size w = Some (answer, w1) ∧
    headers (heap w1) = headers (heap w) ∧
    data (heap w1) = data (heap w) ∧
    live (heap w1)
      = (if answer =? nullptr then live (heap w) else <[answer := size]> (live (heap w))) ∧
    pools_ (pool w1) = pools_ (pool w) ∧
    tls_cache w1 = tls_cache w.
Proof.
  intros Hsh Hs Hi. unfold allocate.
  rewrite Hsh. apply Z.eqb_neq in Hs. rewrite Hs. simpl orb. cbv iota.
  change (config_ (pool (set_stats incr_alloc_count w))) with (config_ (pool w)).
  rewrite Hi. change (-1 >=? 0) with false. cbv iota.
  unfold std_malloc.
  destruct (answer =? nullptr) eqn:E.
  - apply Z.eqb_eq in E. subst answer. simpl. eexists. by split.
  - rewrite E. simpl. eexists. by split.
Qed.

(** C2, at [pool.allocate(2000)] on a default pool, the platform answering
    [4096].  The request goes straight to [std::malloc(2000)] and the raw
    answer is returned; no header is written, so none precedes the returned
    address, and [deallocate] of that address reads one that is not there. *)
Theorem large_allocation_has_no_header :
  ∃ w1,
    allocate 4096 2000 sample_world = Some (4096, w1) ∧
    live (heap w1) !! 4096 = Some 2000 ∧
    headers (heap w1) = headers (heap sample_world) ∧
    headers (heap w1) !! (4096 - header_size w1) = None ∧
    deallocate 4096 w1 = None.
Proof.
  eexists. split; [vm_compute; reflexivity|].
  repeat split; vm_compute; reflexivity.
Qed.

(** ** Deallocating twice *)

(** C3, at [p = pool.allocate(64)] followed by two [pool.deallocate(p)] on a
    default pool.  The second call is not a no-op: it counts as one more
    deallocation and stashes [p] a second time, after which two allocations
    return the same address.  With the fast path disabled the pool rejects the
    second call, but the statistics are adjusted all the same. *)
Theorem second_deallocate_changes_state :
  (∃ w2 w3 w4 w5,
     allocate 4096 64 sample_world = Some (4128, sample_world_1) ∧
     deallocate 4128 sample_world_1 = Some w2 ∧
     deallocate 4128 w2 = Some w3 ∧
     tls_slot w2 3 = [4128] ∧ tls_slot w3 3 = [4128; 4128] ∧
     free_count (stats_ (pool w2)) = 1 ∧ free_count (stats_ (pool w3)) = 2 ∧
     allocate 8192 64 w3 = Some (4128, w4) ∧
     allocate 8192 64 w4 = Some (4128, w5)) ∧
  (∃ w1 w2 w3,
     allocate 4096 64 sample_world_no_tls = Some (4128, w1) ∧
     deallocate 4128 w1 = Some w2 ∧
     deallocate 4128 w2 = Some w3 ∧
     pools_ (pool w3) = pools_ (pool w2) ∧
     stats_ (pool w2) = mkStats 64 64 0 0 1 1 0 ∧
     stats_ (pool w3) = mkStats 64 128 (size_t_modulus - 64) 64 1 2 0).
Proof.
  split.
  - do 4 eexists.
    split; [reflexivity|].
    split; [vm_compute; reflexivity|].
    split; [vm_compute; reflexivity|].
    split; [reflexivity|]. split; [reflexivity|].
    split; [reflexivity|]. split; [reflexivity|].
    split; [vm_compute; reflexivity|].
    vm_compute; reflexivity.
  - do 3 eexists.
    split; [vm_compute; reflexivity|].
    split; [vm_compute; reflexivity|].
    split; [vm_compute; reflexivity|].
    repeat split; vm_compute; reflexivity.
Qed.

(** ** The scoped handle *)

Lemma deallocate_free_count ptr w w' :
  ptr ≠ nullptr →
  deallocate ptr w = Some w' →
  free_count (stats_ (pool w')) = wrap (free_count (stats_ (pool w)) + 1).
Proof.
  intros Hp. unfold deallocate.
  apply Z.eqb_neq in Hp. rewrite Hp.
  change (heap (set_stats incr_free_count w)) with (heap w).
  destruct (headers (heap w) !! _) as [hdr|]; [|done].
  set (release := std_free _ _ ≫= _).
  assert (Hrel : release = Some w' →
                 free_count (stats_ (pool w')) = wrap (free_count (stats_ (pool w)) + 1)).
  { unfold release. destruct (std_free _ _) as [h'|]; simpl; [|done].
    intros [= <-]. reflexivity. }
  clearbody release.
  destruct (negb _); [|done].
  set (i := find_pool_index _ _). clearbody i.
  destruct (if i >=? 0 then _ else _) as [fp|]; [|by destruct (i >=? 0)].
  destruct (_ =? Fixed_Size_Pool.this fp); [|done].
  pose proof (return_to_tls_pool i ptr (set_stats incr_free_count w)) as HP.
  pose proof (return_to_tls_heap i ptr (set_stats incr_free_count w)) as HH.
  destruct (return_to_tls i ptr _) as [[] w1]; simpl in HP, HH.
  - intros [= <-]. by rewrite HP.
  - destruct (Fixed_Size_Pool.deallocate ptr fp (heap w1)) as [[fp' h']|]; simpl; [|done].
    intros [= <-]. simpl. by rewrite HP.
Qed.

(** How the constructor ends, and what the destructor calls: the constructor
    throws [std::runtime_error] exactly when [allocate] returns [nullptr], and
    the destructor of an object is one call of [deallocate] on its address. *)
Lemma raii_ctor_dtor_shape answer size w :
  match Memory_Pool_RAII.ctor answer size w with
  | None => allocate answer size w = None
  | Some (Thrown_runtime_error what, w1) =>
      allocate answer size w = Some (nullptr, w1) ∧
      what = "Memory allocation failed"%string
  | Some (Returned r, w1) =>
      allocate answer size w = Some (Memory_Pool_RAII.get r, w1) ∧
      Memory_Pool_RAII.get r ≠ nullptr ∧
      Memory_Pool_RAII.is_valid r = true ∧
      Memory_Pool_RAII.size r = size ∧
      ∀ w2,
        Memory_Pool_RAII.dtor r w2 = deallocate (Memory_Pool_RAII.get r) w2 ∧
        ∀ w3, Memory_Pool_RAII.dtor r w2 = Some w3 →
              free_count (stats_ (pool w3)) = wrap (free_count (stats_ (pool w2)) + 1)
  end.
Proof.
  unfold Memory_Pool_RAII.ctor.
  destruct (allocate answer size w) as [[p w1]|]; simpl; [|done].
  destruct (p =? nullptr) eqn:E.
  - apply Z.eqb_eq in E. by subst p.
  - unfold Memory_Pool_RAII.is_valid, Memory_Pool_RAII.dtor,
      Memory_Pool_RAII.get, Memory_Pool_RAII.size. simpl. rewrite E. simpl.
    apply Z.eqb_neq in E.
    repeat split; try done.
    intros w3 H. by apply (deallocate_free_count p).
Qed.

(** The half of the contract the code keeps.  When [allocate] fails the
    constructor throws and there is no object. *)
Lemma raii_ctor_throws answer size w w1 :
  allocate answer size w = Some (nullptr, w1) →
  Memory_Pool_RAII.ctor answer size w
  = Some (Thrown_runtime_error "Memory allocation failed", w1).
Proof. intros E. unfold Memory_Pool_RAII.ctor. by rewrite E. Qed.

(** And for a small size on a new pool, the object that the constructor
    builds is released by its destructor, run on the state the constructor
    left: the block ends in the thread's stash, or on its pool's free list
    when the fast path is off, and one deallocation is counted. *)
Lemma raii_small_handle_released
    pool_at max_total_memory enable_tls alignment tls h answer size :
  alignment = 1 ∨ alignment = 2 ∨ alignment = 4 ∨ alignment = 8 →
  0 < size ≤ 1024 →
  0 < answer →
  (∀ n, pool_at n ≠ nullptr) →
  let w0 := new_pool_world pool_at max_total_memory enable_tls alignment tls h in
  let i := find_pool_index (config_ (pool w0)) size in
  (enable_tls = true →
   ∀ c, tls = Some c →
        cache_well_formed c ∧ Thread_Local_Cache.cache c !!! Z.to_nat i = []) →
  ∃ r w1 w2,
    Memory_Pool_RAII.ctor answer size w0 = Some (Returned r, w1) ∧
    Memory_Pool_RAII.get r ≠ nullptr ∧
    Memory_Pool_RAII.size r = size ∧
    Memory_Pool_RAII.dtor r w1 = Some w2 ∧
    free_count (stats_ (pool w2)) = free_count (stats_ (pool w0)) + 1 ∧
    (if enable_tls then tls_slot w2 i = [Memory_Pool_RAII.get r]
     else Fixed_Size_Pool.free_blocks_ <$> pools_ (pool w2) !! Z.to_nat i
          = Some [Memory_Pool_RAII.get r]).
Proof.
  intros Hal Hs Ha Hpool w0 i Htls.
  destruct (round_trip_on_new_pool pool_at max_total_memory enable_tls alignment
              tls h answer size Hal Hs Ha Hpool Htls)
    as (p & w1 & w2 & E & Hp & D & _ & Hfc & Hrest).
  exists (Memory_Pool_RAII.mk p size), w1, w2.
  unfold Memory_Pool_RAII.ctor, Memory_Pool_RAII.dtor, Memory_Pool_RAII.get,
    Memory_Pool_RAII.size.
  subst w0 i. cbv zeta in E. rewrite E. simpl.
  assert ((p =? nullptr) = false) as -> by by apply Z.eqb_neq.
  simpl. repeat split; try done.
  destruct enable_tls; [by destruct Hrest|by destruct Hrest as (_ & ? & _)].
Qed.

(** C8, where the code breaks it.  For a size above the largest class the
    constructor succeeds: [allocate] returns the platform's block as it is,
    with no header (the large branch writes none).  The destructor then calls
    [deallocate], which reads a header in front of the block: there is none,
    so the block is not released through the pool; the call is undefined. *)
Theorem raii_large_handle_is_not_released answer size w :
  shutdown_ (pool w) = false →
  find_pool_index (config_ (pool w)) size = -1 →
  size ≠ 0 →
  answer ≠ nullptr →
  headers (heap w) !! (answer - header_size w) = None →
  ∃ w1,
    Memory_Pool_RAII.ctor answer size w
      = Some (Returned (Memory_Pool_RAII.mk answer size), w1) ∧
    Memory_Pool_RAII.is_valid (Memory_Pool_RAII.mk answer size) = true ∧
    live (heap w1) !! answer = Some size ∧
    Memory_Pool_RAII.dtor (Memory_Pool_RAII.mk answer size) w1 = None.
Proof.
  intros Hsh Hi Hs Ha Hh.
  assert (Hnz : (answer =? nullptr) = false) by by apply Z.eqb_neq.
  set (w1 := set_stats (add_current_used size)
               (set_stats (add_total_allocated size)
                  (set_heap (set_live <[answer := size]> (heap w))
                     (set_stats incr_alloc_count w)))).
  assert (E : allocate answer size w = Some (answer, w1)).
  { unfold allocate. rewrite Hsh.
    assert ((size =? 0) = false) as -> by by apply Z.eqb_neq.
    simpl orb. cbv iota.
    change (config_ (pool (set_stats incr_alloc_count w))) with (config_ (pool w)).
    rewrite Hi. change (-1 >=? 0) with false. cbv iota.
    unfold std_malloc. rewrite Hnz. cbv iota. rewrite Hnz. reflexivity. }
  exists w1.
  unfold Memory_Pool_RAII.ctor, Memory_Pool_RAII.dtor, Memory_Pool_RAII.is_valid.
  rewrite E. simpl. rewrite Hnz. simpl.
  split; [done|]. split; [done|]. split; [apply lookup_insert_eq|].
  unfold deallocate. rewrite Hnz.
  change (headers (heap (set_stats incr_free_count w1))) with (headers (heap w)).
  change (header_size (set_stats incr_free_count w1)) with (header_size w).
  by rewrite Hh.
Qed.

Lemma raii_large_handle_is_not_released_witness :
  ∃ w1,
    Memory_Pool_RAII.ctor 4096 2000 sample_world
      = Some (Returned (Memory_Pool_RAII.mk 4096 2000), w1) ∧
    Memory_Pool_RAII.is_valid (Memory_Pool_RAII.mk 4096 2000) = true ∧
    live (heap w1) !! 4096 = Some 2000 ∧
    Memory_Pool_RAII.dtor (Memory_Pool_RAII.mk 4096 2000) w1 = None.
Proof.
  apply (raii_large_handle_is_not_released 4096 2000 sample_world).
  - reflexivity.
  - reflexivity.
  - lia.
  - unfold nullptr. lia.
  - reflexivity.
Defined.

(** The two outcomes on a default pool: the platform out of memory, and a
    64-byte handle going out of scope. *)
Example raii_throws_when_malloc_fails :
  Memory_Pool_RAII.ctor nullptr 64 sample_world
  = Some (Thrown_runtime_error "Memory allocation failed",
          world_of (allocate nullptr 64 sample_world)).
Proof. reflexivity. Qed.

Example raii_scope_exit_releases_once :
  ∃ w2,
    Memory_Pool_RAII.ctor 4096 64 sample_world
      = Some (Returned (Memory_Pool_RAII.mk 4128 64), sample_world_1) ∧
    Memory_Pool_RAII.dtor (Memory_Pool_RAII.mk 4128 64) sample_world_1 = Some w2 ∧
    tls_slot w2 3 = [4128] ∧
    free_count (stats_ (pool w2)) = 1.
Proof. eexists. split; [reflexivity|]. split; [vm_compute; reflexivity|]. by split. Qed.

(** ** An allocation that fails *)

Lemma elem_of_slot_cached (c : Thread_Local_Cache.t) (n : nat) (x : Z) :
  x ∈ Thread_Local_Cache.cache c !!! n → x ∈ mjoin (Thread_Local_Cache.cache c).
Proof.
  intros H. rewrite list_lookup_total_alt in H.
  destruct (Thread_Local_Cache.cache c !! n) as [v|] eqn:E; simpl in H.
  - apply list_elem_of_join. exists v. split; [done|].
    by apply list_elem_of_lookup_2 in E.
  - by apply elem_of_nil in H.
Qed.

Lemma elem_of_pool_free w (n : nat) fp (x : Z) :
  pools_ (pool w) !! n = Some fp →
  x ∈ Fixed_Size_Pool.free_blocks_ fp → x ∈ pool_free w.
Proof.
  intros E H. unfold pool_free. apply list_elem_of_join.
  exists (Fixed_Size_Pool.free_blocks_ fp). split; [done|].
  apply list_elem_of_fmap. exists fp. split; [done|].
  by apply list_elem_of_lookup_2 in E.
Qed.

Lemma allocate_from_tls_null i w :
  nullptr ∉ tls_cached w →
  (allocate_from_tls i w).1 = nullptr →
  (allocate_from_tls i w).2 = (get_tls_cache w).2.
Proof.
  intros Hn. unfold allocate_from_tls.
  destruct (get_tls_cache w) as [[c|] w1] eqn:E; simpl; [|done].
  destruct (_ || _); [done|].
  destruct (last _) as [p|] eqn:El; simpl; [|done].
  intros ->. exfalso. apply Hn.
  apply last_Some in El as [l' El].
  assert (Hin : nullptr ∈ Thread_Local_Cache.cache c !!! Z.to_nat i).
  { rewrite El. apply elem_of_app. right. apply list_elem_of_singleton. done. }
  revert E. unfold get_tls_cache, tls_cached.
  destruct (enable_tls _); [|done]. simpl.
  destruct (tls_cache w) as [c'|].
  - intros [= -> _]. by apply elem_of_slot_cached in Hin.
  - intros [= <- _]. simpl in Hin. rewrite replicate_nil_lookup_total in Hin.
    by apply elem_of_nil in Hin.
Qed.

Lemma allocate_null answer size w w1 :
  0 ≤ answer →
  no_null_cached w →
  allocate answer size w = Some (nullptr, w1) →
  heap w1 = heap w ∧
  pools_ (pool w1) = pools_ (pool w) ∧
  (∀ i, tls_slot w1 i = tls_slot w i) ∧
  config_ (pool w1) = config_ (pool w) ∧
  shutdown_ (pool w1) = shutdown_ (pool w) ∧
  (stats_ (pool w1) = stats_ (pool w) ∨
   stats_ (pool w1) = incr_alloc_count (stats_ (pool w))).
Proof.
  intros Ha [Ht Hf]. unfold allocate.
  destruct (_ || _).
  { intros [= <-]. repeat split; by left. }
  set (W := set_stats incr_alloc_count w).
  set (i := find_pool_index _ size). clearbody i.
  assert (HW : (get_tls_cache W).2 = (get_tls_cache W).2) by done.
  pose proof (get_tls_cache_pool W) as HP.
  pose proof (get_tls_cache_heap W) as HH.
  pose proof (get_tls_cache_slot W) as HS.
  destruct (i >=? 0).
  - pose proof (allocate_from_tls_null i W Ht) as Hnull.
    destruct (allocate_from_tls i W) as [p W'] eqn:E. simpl in Hnull.
    destruct (p =? nullptr) eqn:Ep; simpl; [|intros [= -> _]; done].
    apply Z.eqb_eq in Ep. specialize (Hnull Ep). subst W'.
    rewrite HP, HH.
    change (pools_ (pool W)) with (pools_ (pool w)).
    destruct (pools_ (pool w) !! Z.to_nat i) as [fp|] eqn:Efp; [|done].
    unfold Fixed_Size_Pool.allocate.
    destruct (Fixed_Size_Pool.free_blocks_ fp) as [|q rest] eqn:Efb.
    + unfold std_malloc. destruct (answer =? nullptr) eqn:Ea.
      * simpl. intros [= <-]. simpl. rewrite ?HP, ?HH. simpl.
        rewrite list_insert_id by done.
        repeat split; try done; try (by right).
      * rewrite Ea. 
        assert (Hhs : 0 ≤ Fixed_Size_Pool.header_size fp) by apply align_up_nonneg.
        assert ((answer + Fixed_Size_Pool.header_size fp =? nullptr) = false) as ->.
        { apply Z.eqb_neq in Ea. unfold nullptr in *. lia. }
        simpl. intros [= E' _]. apply Z.eqb_neq in Ea. unfold nullptr in *. lia.
    + destruct (q =? nullptr) eqn:Hq; simpl; [|intros H; simplify_eq; done].
      apply Z.eqb_eq in Hq. subst q. exfalso. apply Hf.
      apply (elem_of_pool_free w _ fp _ Efp). rewrite Efb. left.
  - unfold std_malloc. destruct (answer =? nullptr) eqn:Ea.
    + simpl. intros [= <-]. simpl. repeat split; try done. by right.
    + rewrite Ea. simpl. intros H. simplify_eq.
Qed.

(** C5. When [reallocate] of a block has to allocate afresh and that
    allocation fails, it returns [nullptr] and the block stays as it was and
    with the caller: the heap (header, contents, the platform's blocks) is
    unchanged, and so are every pool and every stash of the thread's cache. *)
Theorem reallocate_failure_keeps_block answer ptr new_size w hdr w1 :
  ptr ≠ nullptr →
  0 ≤ answer →
  no_null_cached w →
  headers (heap w) !! (ptr - header_size w) = Some hdr →
  ¬ (Memory_Block_Header.size hdr / 2 < new_size ≤ Memory_Block_Header.size hdr) →
  allocate answer new_size w = Some (nullptr, w1) →
  reallocate answer ptr new_size w = Some (nullptr, w1) ∧
  heap w1 = heap w ∧
  headers (heap w1) !! (ptr - header_size w1) = Some hdr ∧
  pools_ (pool w1) = pools_ (pool w) ∧
  (∀ i, tls_slot w1 i = tls_slot w i).
Proof.
  intros Hp Ha Hn Hh Hr E.
  destruct (allocate_null answer new_size w w1 Ha Hn E)
    as (HH & HP & HT & HC & _).
  split.
  - unfold reallocate. apply Z.eqb_neq in Hp. rewrite Hp, Hh.
    assert (((new_size <=? Memory_Block_Header.size hdr)
             && (new_size >? Memory_Block_Header.size hdr / 2)) = false) as ->.
    { apply andb_false_iff.
      destruct (Z.leb_spec new_size (Memory_Block_Header.size hdr)); [|by left].
      right. lia. }
    rewrite E. reflexivity.
  - unfold header_size. rewrite HH, HC. done.
Qed.

Lemma reallocate_failure_keeps_block_witness :
  reallocate nullptr 4128 200 sample_world_1 = Some (nullptr, sample_world_failed) ∧
  heap sample_world_failed = heap sample_world_1 ∧
  headers (heap sample_world_failed) !! (4128 - header_size sample_world_failed)
    = Some (Memory_Block_Header.mk 64 64 true (sample_pool_at 3)) ∧
  pools_ (pool sample_world_failed) = pools_ (pool sample_world_1) ∧
  (∀ i, tls_slot sample_world_failed i = tls_slot sample_world_1 i).
Proof.
  apply (reallocate_failure_keeps_block nullptr 4128 200 sample_world_1
           (Memory_Block_Header.mk 64 64 true (sample_pool_at 3))).
  - unfold nullptr. lia.
  - unfold nullptr. lia.
  - split.
    + change (tls_cached sample_world_1) with (@nil Z). apply not_elem_of_nil.
    + change (pool_free sample_world_1) with (@nil Z). apply not_elem_of_nil.
  - reflexivity.
  - simpl. lia.
  - reflexivity.
Defined.

(** ** Reallocation *)

Lemma foldr_copy_byte_lookup src dst (from d : gmap Z byte) (l : list nat) (k : nat) :
  k ∈ l →
  foldr (copy_byte src dst from) d l !! (dst + Z.of_nat k)
  = from !! (src + Z.of_nat k).
Proof.
  induction l as [|j l IH]; intros Hk; [by apply elem_of_nil in Hk|].
  simpl. unfold copy_byte at 1.
  destruct (decide (j = k)) as [->|Hne].
  - destruct (from !! (src + Z.of_nat k)) as [b|].
    + apply lookup_insert_eq.
    + apply lookup_delete_eq.
  - apply elem_of_cons in Hk as [->|Hk]; [done|].
    destruct (from !! (src + Z.of_nat j)) as [b|].
    + rewrite lookup_insert_ne by lia. by apply IH.
    + rewrite lookup_delete_ne by lia. by apply IH.
Qed.

Lemma read_bytes_memcpy dst src n h :
  read_bytes (std_memcpy dst src n h) dst n = read_bytes h src n.
Proof.
  unfold read_bytes. apply list_fmap_ext. intros i k Hk.
  unfold std_memcpy. simpl.
  apply foldr_copy_byte_lookup. by apply list_elem_of_lookup_2 in Hk.
Qed.

Lemma read_bytes_data h h' p n : data h = data h' → read_bytes h p n = read_bytes h' p n.
Proof. unfold read_bytes. by intros ->. Qed.

Lemma allocate_from_tls_pool i w : pool (allocate_from_tls i w).2 = pool w.
Proof.
  unfold allocate_from_tls.
  pose proof (get_tls_cache_pool w) as H.
  destruct (get_tls_cache w) as [[c|] w1]; simpl in *; [|done].
  destruct (_ || _); [done|]. by destruct (last _).
Qed.

Lemma allocate_from_tls_heap i w : heap (allocate_from_tls i w).2 = heap w.
Proof.
  unfold allocate_from_tls.
  pose proof (get_tls_cache_heap w) as H.
  destruct (get_tls_cache w) as [[c|] w1]; simpl in *; [|done].
  destruct (_ || _); [done|]. by destruct (last _).
Qed.

Lemma allocate_from_tls_origin i w :
  (allocate_from_tls i w).1 = nullptr ∨ (allocate_from_tls i w).1 ∈ tls_cached w.
Proof.
  unfold allocate_from_tls.
  destruct (get_tls_cache w) as [[c|] w1] eqn:E; simpl; [|by left].
  destruct (_ || _); [by left|].
  destruct (last _) as [p|] eqn:El; simpl; [|by left].
  right. apply last_Some in El as [l' El].
  assert (Hin : p ∈ Thread_Local_Cache.cache c !!! Z.to_nat i).
  { rewrite El. apply elem_of_app. right. by apply list_elem_of_singleton. }
  revert E. unfold get_tls_cache, tls_cached.
  destruct (enable_tls _); [|done]. simpl.
  destruct (tls_cache w) as [c'|].
  - intros [= -> _]. by apply elem_of_slot_cached in Hin.
  - intros [= <- _]. simpl in Hin. rewrite replicate_nil_lookup_total in Hin.
    by apply elem_of_nil in Hin.
Qed.

(** Where the result of [allocate] comes from, and what the call leaves
    alone. *)
Lemma allocate_frame answer size w p w1 :
  allocate answer size w = Some (p, w1) →
  config_ (pool w1) = config_ (pool w) ∧
  data (heap w1) = data (heap w) ∧
  (∀ a, a ≠ answer → headers (heap w1) !! a = headers (heap w) !! a) ∧
  (∀ j fp, pools_ (pool w) !! j = Some fp →
     ∃ fp1, pools_ (pool w1) !! j = Some fp1 ∧
            Fixed_Size_Pool.this fp1 = Fixed_Size_Pool.this fp ∧
            Fixed_Size_Pool.alignment_ fp1 = Fixed_Size_Pool.alignment_ fp) ∧
  (p = nullptr ∨ p ∈ tls_cached w ∨ p ∈ pool_free w ∨
   (answer ≠ nullptr ∧
    (p = answer ∨
     ∃ j fp, pools_ (pool w) !! j = Some fp ∧
             p = answer + Fixed_Size_Pool.header_size fp))).
Proof.
  unfold allocate.
  destruct (_ || _).
  { intros [= <- <-]. repeat split; eauto. }
  set (W := set_stats incr_alloc_count w).
  set (i := find_pool_index _ size). clearbody i.
  destruct (i >=? 0).
  - pose proof (allocate_from_tls_pool i W) as HP.
    pose proof (allocate_from_tls_heap i W) as HH.
    pose proof (allocate_from_tls_origin i W) as HO.
    destruct (allocate_from_tls i W) as [q W'] eqn:E. cbn [fst snd] in HP, HH, HO.
    change (tls_cached W) with (tls_cached w) in HO.
    destruct (q =? nullptr) eqn:Hq; simpl.
    + rewrite HP, HH. change (pools_ (pool W)) with (pools_ (pool w)).
      change (heap W) with (heap w).
      destruct (pools_ (pool w) !! Z.to_nat i) as [fp|] eqn:Efp; [|done].
      assert (Hpools : ∀ fp',
                Fixed_Size_Pool.this fp' = Fixed_Size_Pool.this fp →
                Fixed_Size_Pool.alignment_ fp' = Fixed_Size_Pool.alignment_ fp →
                ∀ j fp0, pools_ (pool w) !! j = Some fp0 →
                  ∃ fp1, <[Z.to_nat i := fp']> (pools_ (pool w)) !! j = Some fp1 ∧
                         Fixed_Size_Pool.this fp1 = Fixed_Size_Pool.this fp0 ∧
                         Fixed_Size_Pool.alignment_ fp1 = Fixed_Size_Pool.alignment_ fp0).
      { intros fp' H1 H2 j fp0 Hj. destruct (decide (j = Z.to_nat i)) as [->|Hne].
        - exists fp'. rewrite list_lookup_insert_eq by (by eapply lookup_lt_Some).
          rewrite Efp in Hj. injection Hj as <-. done.
        - exists fp0. by rewrite list_lookup_insert_ne. }
      unfold Fixed_Size_Pool.allocate.
      destruct (Fixed_Size_Pool.free_blocks_ fp) as [|r rest] eqn:Efb.
      * unfold std_malloc. destruct (answer =? nullptr) eqn:Ea.
        { simpl. intros [= <- <-]. simpl. rewrite HP.
          repeat split; try done; [by apply Hpools|by left]. }
        rewrite Ea.
        destruct (answer + Fixed_Size_Pool.header_size fp =? nullptr) eqn:Ez; simpl.
        { intros [= <- <-]. simpl. rewrite HP.
          repeat split; try done.
          - intros a Ha. by rewrite lookup_insert_ne.
          - by apply Hpools.
          - by left. }
        intros [= <- <-]. simpl. rewrite HP.
        repeat split; try done.
        { intros a Ha. by rewrite lookup_insert_ne. }
        { by apply Hpools. }
        right. right. right. apply Z.eqb_neq in Ea. split; [done|].
        right. eauto.
      * assert (Hr : r ∈ pool_free w).
        { apply (elem_of_pool_free w _ fp _ Efp). rewrite Efb. left. }
        destruct (r =? nullptr); simpl; intros [= <- <-]; simpl; rewrite HP;
          (repeat split; try done; [by apply Hpools|]); [by left|by (right; right; left)].
    + intros [= <- <-]. simpl. rewrite HP, HH.
      repeat split; try done; [eauto|].
      destruct HO as [->|HO]; [done|]. right. by left.
  - unfold std_malloc. destruct (answer =? nullptr) eqn:Ea.
    + simpl. intros [= <- <-]. repeat split; eauto.
    + rewrite Ea. simpl. intros [= <- <-]. simpl.
      repeat split; eauto.
      right. right. right. apply Z.eqb_neq in Ea. split; [done|by left].
Qed.

Lemma deallocate_pool_block_data ptr w hdr fp :
  ptr ≠ nullptr →
  headers (heap w) !! (ptr - header_size w) = Some hdr →
  Memory_Block_Header.pool_ptr hdr ≠ nullptr →
  0 ≤ find_pool_index (config_ (pool w)) (Memory_Block_Header.block_size hdr) →
  pools_ (pool w)
    !! Z.to_nat (find_pool_index (config_ (pool w)) (Memory_Block_Header.block_size hdr))
  = Some fp →
  Memory_Block_Header.pool_ptr hdr = Fixed_Size_Pool.this fp →
  Fixed_Size_Pool.alignment_ fp = alignment (config_ (pool w)) →
  ∃ w', deallocate ptr w = Some w' ∧ data (heap w') = data (heap w).
Proof.
  intros Hp Hh Hn Hi Hfp Ho Hal.
  pose proof (deallocate_pool_block ptr w hdr fp Hp Hh Hn) as D.
  cbv zeta in D. rewrite (D Hi Hfp Ho). clear D.
  set (i := find_pool_index _ _). clearbody i.
  pose proof (return_to_tls_heap i ptr (set_stats incr_free_count w)) as HH.
  destruct (return_to_tls i ptr _) as [acc w1]. cbn [fst snd] in HH.
  change (heap (set_stats incr_free_count w)) with (heap w) in HH.
  destruct acc.
  - exists w1. by rewrite HH.
  - unfold Fixed_Size_Pool.deallocate.
    apply Z.eqb_neq in Hp. rewrite Hp.
    assert (Fixed_Size_Pool.header_size fp = header_size w) as ->
      by (unfold Fixed_Size_Pool.header_size, header_size; by rewrite Hal).
    rewrite HH, Hh.
    destruct (_ || _); simpl; eexists; (split; [reflexivity|]); simpl; by rewrite ?HH.
Qed.

(** C4, as the code has it.  [reallocate] compares [new_size] with the size
    recorded in the block's header, which for a pool block is its class size.
    For a block the caller holds, with header size [old_size]: when
    [old_size / 2 < new_size <= old_size] the same address comes back and
    nothing changes; otherwise the result is that of the fresh [allocate]:
    [nullptr] when it fails, and when it succeeds a different address whose
    first [min old_size new_size] bytes are those of the old block. *)
Theorem reallocate_by_header_size answer ptr new_size w hdr :
  pools_aligned w →
  handed_out w ptr hdr →
  fresh_answer answer w →
  (Memory_Block_Header.size hdr / 2 < new_size ≤ Memory_Block_Header.size hdr →
     reallocate answer ptr new_size w = Some (ptr, w)) ∧
  (¬ (Memory_Block_Header.size hdr / 2 < new_size ≤ Memory_Block_Header.size hdr) →
     match allocate answer new_size w with
     | None => reallocate answer ptr new_size w = None
     | Some (new_ptr, w1) =>
         if new_ptr =? nullptr
         then reallocate answer ptr new_size w = Some (nullptr, w1)
         else
           ∃ w2,
             reallocate answer ptr new_size w = Some (new_ptr, w2) ∧
             new_ptr ≠ ptr ∧
             read_bytes (heap w2) new_ptr
               (Z.min (Memory_Block_Header.size hdr) new_size)
             = read_bytes (heap w) ptr
                 (Z.min (Memory_Block_Header.size hdr) new_size)
     end).
Proof.
  intros Hal (Hp & Hh & Hn & Hi & Hthis & Htls & Hfree & sz & Hlive & Hsz) [Ha Hfresh].
  set (old_size := Memory_Block_Header.size hdr).
  set (i := find_pool_index (config_ (pool w)) (Memory_Block_Header.block_size hdr)) in *.
  assert (Hhs : 0 ≤ header_size w) by apply align_up_nonneg.
  pose proof (Hfresh _ _ Hlive) as Hb. simpl in Hb.
  assert (Hunfold : reallocate answer ptr new_size w =
            if (new_size <=? old_size) && (new_size >? old_size / 2) then Some (ptr, w)
            else
              '(new_ptr, w) ← allocate answer new_size w;
              if new_ptr =? nullptr then Some (nullptr, w)
              else
                let copy_size := if old_size <? new_size then old_size else new_size in
                let w := set_heap (std_memcpy new_ptr ptr copy_size (heap w)) w in
                w ← deallocate ptr w; Some (new_ptr, w)).
  { unfold reallocate. assert ((ptr =? nullptr) = false) as -> by by apply Z.eqb_neq.
    by rewrite Hh. }
  rewrite Hunfold. clear Hunfold.
  split.
  - intros Hr.
    assert (((new_size <=? old_size) && (new_size >? old_size / 2)) = true) as ->; [|done].
    apply andb_true_iff. split; lia.
  - intros Hr.
    assert (((new_size <=? old_size) && (new_size >? old_size / 2)) = false) as ->.
    { apply andb_false_iff.
      destruct (Z.leb_spec new_size old_size); [|by left]. right. lia. }
    destruct (allocate answer new_size w) as [[new_ptr w1]|] eqn:E; simpl; [|done].
    destruct (new_ptr =? nullptr) eqn:En; [done|].
    apply Z.eqb_neq in En.
    destruct (allocate_frame _ _ _ _ _ E) as (Hcfg & Hdata & Hhdrs & Hpools & Horigin).
    destruct (pools_ (pool w) !! Z.to_nat i) as [fp|] eqn:Efp; [|done].
    simpl in Hthis. injection Hthis as Hthis.
    destruct (Hpools _ _ Efp) as (fp1 & Efp1 & Hthis1 & Hal1).
    assert (Halfp : Fixed_Size_Pool.alignment_ fp = alignment (config_ (pool w))).
    { eapply (Forall_lookup_1 _ _ _ _ Hal Efp). }
    assert (Hcopy : (if old_size <? new_size then old_size else new_size)
                    = Z.min old_size new_size).
    { destruct (Z.ltb_spec old_size new_size); lia. }
    rewrite Hcopy.
    set (w1' := set_heap (std_memcpy new_ptr ptr (Z.min old_size new_size) (heap w1)) w1).
    assert (Hhs1 : header_size w1' = header_size w)
      by (unfold header_size; simpl; by rewrite Hcfg).
    destruct (deallocate_pool_block_data ptr w1' hdr fp1) as (w2 & D & Hd2).
    + done.
    + rewrite Hhs1. simpl. rewrite Hhdrs; [done|]. lia.
    + done.
    + simpl. rewrite Hcfg. done.
    + simpl. rewrite Hcfg. done.
    + congruence.
    + simpl. rewrite Hcfg. congruence.
    + rewrite D. simpl. exists w2. split; [done|]. split.
      * destruct Horigin as [?|[?|[?|[Hne [->| (j & fpj & Ej & ->)]]]]];
          [done|congruence|congruence|lia|].
        assert (Fixed_Size_Pool.header_size fpj = header_size w) as ->.
        { unfold Fixed_Size_Pool.header_size, header_size.
          by rewrite (Forall_lookup_1 _ _ _ _ Hal Ej). }
        lia.
      * rewrite (read_bytes_data (heap w2) (heap w1')) by done.
        unfold w1'. simpl. rewrite read_bytes_memcpy.
        by apply read_bytes_data.
Qed.

Lemma reallocate_by_header_size_witness :
  (Memory_Block_Header.size (Memory_Block_Header.mk 64 64 true (sample_pool_at 3)) / 2
     < 200 ≤ Memory_Block_Header.size (Memory_Block_Header.mk 64 64 true (sample_pool_at 3)) →
     reallocate 8192 4128 200 sample_world_1 = Some (4128, sample_world_1)) ∧
  (¬ (Memory_Block_Header.size (Memory_Block_Header.mk 64 64 true (sample_pool_at 3)) / 2
        < 200 ≤ Memory_Block_Header.size (Memory_Block_Header.mk 64 64 true (sample_pool_at 3))) →
     match allocate 8192 200 sample_world_1 with
     | None => reallocate 8192 4128 200 sample_world_1 = None
     | Some (new_ptr, w1) =>
         if new_ptr =? nullptr
         then reallocate 8192 4128 200 sample_world_1 = Some (nullptr, w1)
         else
           ∃ w2,
             reallocate 8192 4128 200 sample_world_1 = Some (new_ptr, w2) ∧
             new_ptr ≠ 4128 ∧
             read_bytes (heap w2) new_ptr
               (Z.min (Memory_Block_Header.size
                         (Memory_Block_Header.mk 64 64 true (sample_pool_at 3))) 200)
             = read_bytes (heap sample_world_1) 4128
                 (Z.min (Memory_Block_Header.size
                           (Memory_Block_Header.mk 64 64 true (sample_pool_at 3))) 200)
     end).
Proof.
  apply (reallocate_by_header_size 8192 4128 200 sample_world_1
           (Memory_Block_Header.mk 64 64 true (sample_pool_at 3))).
  - unfold pools_aligned.
    change (pools_ (pool sample_world_1))
      with (<[3%nat := Fixed_Size_Pool.mk (sample_pool_at 3) 64 8 [] 1 0 1]>
              (pools_ (pool sample_world))).
    repeat constructor.
  - split; [unfold nullptr; lia|].
    split; [reflexivity|].
    split; [unfold nullptr, sample_pool_at; simpl; lia|].
    split; [apply Z.leb_le; reflexivity|].
    split; [reflexivity|].
    split; [change (tls_cached sample_world_1) with (@nil Z); apply not_elem_of_nil|].
    split; [change (pool_free sample_world_1) with (@nil Z); apply not_elem_of_nil|].
    exists 96. split; [reflexivity|]. apply Z.ltb_lt. reflexivity.
  - split; [lia|].
    change (live (heap sample_world_1)) with (<[4096 := 96]> (∅ : gmap Z Z)).
    apply map_Forall_insert_2; [lia|apply map_Forall_empty].
Defined.

(** The two branches on a default pool holding one 64-byte block at 4128. *)
Example reallocate_keeps_the_address :
  reallocate 8192 4128 40 sample_world_1 = Some (4128, sample_world_1).
Proof. reflexivity. Qed.

Example reallocate_moves_the_block :
  ∃ w2,
    reallocate 8192 4128 200 sample_world_1 = Some (8224, w2) ∧
    tls_slot w2 3 = [4128] ∧
    live (heap w2) !! 8192 = Some 288.
Proof. eexists. split; [vm_compute; reflexivity|]. by split. Qed.

(** A block requested with 5 bytes is an 8-byte block: reallocating it to 3
    bytes moves it, although [5 / 2 < 3 <= 5]. *)
Lemma reallocate_compares_with_class_size :
  5 / 2 < 3 ≤ 5 ∧ ¬ reallocate_in_place 4096 5 8192 3 sample_world.
Proof.
  split; [split; [apply Z.ltb_lt; reflexivity|lia]|].
  intros (p & w1 & w2 & E1 & E2).
  assert (E : allocate 4096 5 sample_world
              = Some (4128, world_of (allocate 4096 5 sample_world))) by reflexivity.
  rewrite E in E1.
  assert (p = 4128 ∧ w1 = world_of (allocate 4096 5 sample_world)) as [-> ->]
    by (split; congruence).
  assert (R : ∃ w, reallocate 8192 4128 3 (world_of (allocate 4096 5 sample_world))
                   = Some (8224, w)).
  { eexists. vm_compute. reflexivity. }
  destruct R as [w R]. rewrite R in E2. discriminate E2.
Qed.

(** ** The side conditions hold along real runs *)

Lemma fresh_no_null_cached pool_at max_total_memory enable_tls alignment h :
  no_null_cached (fresh pool_at max_total_memory enable_tls alignment h).
Proof. split; apply not_elem_of_nil. Qed.

Lemma fresh_pools_aligned pool_at max_total_memory enable_tls alignment h :
  pools_aligned (fresh pool_at max_total_memory enable_tls alignment h).
Proof. unfold pools_aligned. simpl. repeat constructor. Qed.

Lemma elem_of_join_insert (l : list (list Z)) (i : nat) (v : list Z) (x : Z) :
  x ∈ mjoin (<[i := v]> l) → x ∈ v ∨ x ∈ mjoin l.
Proof.
  intros H. apply list_elem_of_join in H as (u & Hx & Hu).
  apply list_elem_of_lookup in Hu as [j Hj].
  destruct (decide (i = j)) as [->|Hne].
  - destruct (decide (j < length l)%nat) as [Hlt|Hge].
    + rewrite list_lookup_insert_eq in Hj by done. injection Hj as ->. by left.
    + rewrite list_insert_ge in Hj by lia. right.
      apply list_elem_of_join. exists u. split; [done|].
      by apply list_elem_of_lookup_2 in Hj.
  - rewrite list_lookup_insert_ne in Hj by done. right.
    apply list_elem_of_join. exists u. split; [done|].
    by apply list_elem_of_lookup_2 in Hj.
Qed.

Lemma get_tls_cache_cached w : tls_cached (get_tls_cache w).2 = tls_cached w.
Proof.
  unfold get_tls_cache, tls_cached.
  destruct (enable_tls _); simpl; [|done].
  destruct (tls_cache w) eqn:E; simpl; by rewrite ?E.
Qed.

Lemma get_tls_cache_some w c :
  (get_tls_cache w).1 = Some c → tls_cache (get_tls_cache w).2 = Some c.
Proof.
  unfold get_tls_cache.
  destruct (enable_tls _); simpl; [|done].
  destruct (tls_cache w) eqn:E; simpl; congruence.
Qed.

Lemma allocate_from_tls_cached i w x :
  x ∈ tls_cached (allocate_from_tls i w).2 → x ∈ tls_cached w.
Proof.
  unfold allocate_from_tls.
  pose proof (get_tls_cache_cached w) as HC.
  pose proof (get_tls_cache_some w) as HS.
  destruct (get_tls_cache w) as [[c|] w1]; cbn [fst snd] in *; [|by rewrite HC].
  specialize (HS c eq_refl).
  destruct (_ || _); cbn [snd]; [by rewrite HC|].
  destruct (last _) as [p|] eqn:El; cbn [snd]; [|by rewrite HC].
  rewrite <- HC. unfold tls_cached at 1 2. rewrite HS. simpl.
  intros H. apply elem_of_join_insert in H as [H|H]; [|done].
  apply (elem_of_slot_cached c (Z.to_nat i)).
  apply last_Some in El as [l' El]. rewrite El.
  rewrite El, removelast_last in H. apply elem_of_app. by left.
Qed.

Lemma return_to_tls_cached i ptr w x :
  x ∈ tls_cached (return_to_tls i ptr w).2 → x = ptr ∧ ptr ≠ nullptr ∨ x ∈ tls_cached w.
Proof.
  unfold return_to_tls.
  pose proof (get_tls_cache_cached w) as HC.
  pose proof (get_tls_cache_some w) as HS.
  destruct (get_tls_cache w) as [[c|] w1]; cbn [fst snd] in *;
    [|rewrite HC; by right].
  specialize (HS c eq_refl).
  destruct (ptr =? nullptr) eqn:Ep.
  { rewrite orb_true_r. cbn [snd]. rewrite HC. by right. }
  rewrite orb_false_r.
  destruct (_ || _); cbn [snd]; [rewrite HC; by right|].
  destruct (Z.of_nat _ <? _); cbn [snd]; [|rewrite HC; by right].
  rewrite <- HC. unfold tls_cached at 1 2. rewrite HS. simpl.
  intros H. apply elem_of_join_insert in H as [H|H]; [|by right].
  apply elem_of_app in H as [H|H].
  - right. by apply (elem_of_slot_cached c (Z.to_nat i)).
  - left. apply list_elem_of_singleton in H. split; [done|]. by apply Z.eqb_neq.
Qed.

Lemma pool_free_insert w (i : nat) fp x :
  x ∈ mjoin (Fixed_Size_Pool.free_blocks_ <$> <[i := fp]> (pools_ (pool w))) →
  x ∈ Fixed_Size_Pool.free_blocks_ fp ∨ x ∈ pool_free w.
Proof. rewrite list_fmap_insert. apply elem_of_join_insert. Qed.

(** [allocate] puts nothing into a stash or onto a free list. *)
Lemma allocate_no_null_cached answer size w p w1 :
  allocate answer size w = Some (p, w1) →
  no_null_cached w → no_null_cached w1.
Proof.
  intros E [Ht Hf].
  assert (Hsub : (∀ x, x ∈ tls_cached w1 → x ∈ tls_cached w) ∧
                 (∀ x, x ∈ pool_free w1 → x ∈ pool_free w));
    [|destruct Hsub as [H1 H2]; split; intros H; [apply Ht, H1, H|apply Hf, H2, H]].
  revert E. unfold allocate.
  destruct (_ || _); [by intros [= <- <-]|].
  set (W := set_stats incr_alloc_count w).
  set (i := find_pool_index _ size). clearbody i.
  destruct (i >=? 0).
  - pose proof (allocate_from_tls_pool i W) as HP.
    pose proof (allocate_from_tls_cached i W) as HC.
    destruct (allocate_from_tls i W) as [q W'] eqn:E. cbn [fst snd] in HP, HC.
    change (tls_cached W) with (tls_cached w) in HC.
    destruct (negb (q =? nullptr)).
    + intros [= <- <-]. split; [done|]. unfold pool_free. simpl. by rewrite HP.
    + rewrite HP. change (pools_ (pool W)) with (pools_ (pool w)).
      destruct (pools_ (pool w) !! Z.to_nat i) as [fp|] eqn:Efp; [|done].
      destruct (Fixed_Size_Pool.allocate answer fp (heap W')) as [[r fp'] h'] eqn:EA.
      assert (Hfp' : ∀ x, x ∈ Fixed_Size_Pool.free_blocks_ fp' →
                          x ∈ Fixed_Size_Pool.free_blocks_ fp).
      { revert EA. unfold Fixed_Size_Pool.allocate.
        destruct (Fixed_Size_Pool.free_blocks_ fp) as [|r' rest] eqn:Efb.
        - destruct (std_malloc _ _ _) as [raw h1].
          destruct (raw =? nullptr); intros [= _ <- _]; simpl; by rewrite ?Efb.
        - intros [= _ <- _]. simpl. intros x Hx. by right. }
      assert (Hfree : ∀ x,
                x ∈ mjoin (Fixed_Size_Pool.free_blocks_
                             <$> <[Z.to_nat i := fp']> (pools_ (pool w))) →
                x ∈ pool_free w).
      { intros x Hx. apply pool_free_insert in Hx as [Hx|Hx]; [|done].
        apply (elem_of_pool_free w _ fp _ Efp). by apply Hfp'. }
      destruct (negb (r =? nullptr)); intros [= <- <-]; (split; [done|]);
        unfold pool_free; simpl; rewrite HP; apply Hfree.
  - destruct (std_malloc _ _ _) as [r h']. 
    destruct (negb (r =? nullptr)); by intros [= <- <-].
Qed.

(** [deallocate] stashes or frees only the non-null address it was given. *)
Lemma deallocate_no_null_cached ptr w w' :
  deallocate ptr w = Some w' →
  no_null_cached w → no_null_cached w'.
Proof.
  intros E [Ht Hf].
  assert (Hsub : (∀ x, x ∈ tls_cached w' → x ≠ nullptr ∨ x ∈ tls_cached w) ∧
                 (∀ x, x ∈ pool_free w' → x ≠ nullptr ∨ x ∈ pool_free w)).
  2:{ destruct Hsub as [H1 H2].
      split; intros H; [destruct (H1 _ H)|destruct (H2 _ H)]; done. }
  revert E. unfold deallocate.
  destruct (ptr =? nullptr) eqn:Ep; [intros [= <-]; split; by right|].
  apply Z.eqb_neq in Ep.
  set (W := set_stats incr_free_count w).
  destruct (headers (heap W) !! _) as [hdr|]; [|done].
  set (release := std_free _ _ ≫= _).
  assert (Hrel : release = Some w' →
            (∀ x, x ∈ tls_cached w' → x ≠ nullptr ∨ x ∈ tls_cached w) ∧
            (∀ x, x ∈ pool_free w' → x ≠ nullptr ∨ x ∈ pool_free w)).
  { unfold release. destruct (std_free _ _) as [h'|]; simpl; [|done].
    intros [= <-]. split; by right. }
  clearbody release.
  destruct (negb _); [|done].
  set (i := find_pool_index _ _). clearbody i.
  change (pools_ (pool W)) with (pools_ (pool w)).
  destruct (i >=? 0); [|done].
  destruct (pools_ (pool w) !! Z.to_nat i) as [fp|] eqn:Efp; [|done].
  destruct (_ =? Fixed_Size_Pool.this fp); [|done].
  pose proof (return_to_tls_pool i ptr W) as HP.
  pose proof (return_to_tls_cached i ptr W) as HC.
  destruct (return_to_tls i ptr W) as [acc w1]. cbn [fst snd] in HP, HC.
  change (tls_cached W) with (tls_cached w) in HC.
  assert (HC' : ∀ x, x ∈ tls_cached w1 → x ≠ nullptr ∨ x ∈ tls_cached w).
  { intros x Hx. destruct (HC x Hx) as [[-> ?]|?]; [by left|by right]. }
  destruct acc.
  - intros [= <-]. split; [done|]. unfold pool_free. rewrite HP. by right.
  - destruct (Fixed_Size_Pool.deallocate ptr fp (heap w1)) as [[fp' h']|] eqn:ED;
      simpl; [|done].
    intros [= <-]. split; [done|].
    unfold pool_free at 1. simpl. rewrite HP.
    change (pools_ (pool W)) with (pools_ (pool w)).
    intros x Hx. apply pool_free_insert in Hx as [Hx|Hx]; [|by right].
    revert ED. unfold Fixed_Size_Pool.deallocate.
    assert ((ptr =? nullptr) = false) as -> by by apply Z.eqb_neq.
    destruct (headers (heap w1) !! _) as [hd|]; [|done].
    destruct (_ || _); intros [= <- _].
    + right. by apply (elem_of_pool_free w _ fp _ Efp).
    + simpl in Hx. apply elem_of_app in Hx as [Hx|Hx].
      * right. by apply (elem_of_pool_free w _ fp _ Efp).
      * left. by apply list_elem_of_singleton in Hx as ->.
Qed.

Lemma reallocate_no_null_cached answer ptr new_size w p w' :
  reallocate answer ptr new_size w = Some (p, w') →
  no_null_cached w → no_null_cached w'.
Proof.
  unfold reallocate. intros E Hn.
  destruct (ptr =? nullptr); [by eapply allocate_no_null_cached|].
  destruct (headers (heap w) !! _) as [hdr|]; [|done].
  destruct (_ && _); [by injection E as <- <-|].
  destruct (allocate answer new_size w) as [[q w1]|] eqn:EA; simpl in E; [|done].
  pose proof (allocate_no_null_cached _ _ _ _ _ EA Hn) as Hn1.
  destruct (q =? nullptr); [by injection E as <- <-|].
  destruct (deallocate ptr _) as [w2|] eqn:ED; simpl in E; [|done].
  injection E as <- <-.
  by apply (deallocate_no_null_cached _ _ _ ED).
Qed.

(** The address a fresh default-aligned pool hands out for a small request
    meets every side condition of the reallocation theorems. *)
Lemma allocate_fresh_handed_out pool_at max_total_memory enable_tls h answer size :
  0 < size ≤ 1024 →
  0 < answer →
  (∀ n, pool_at n ≠ nullptr) →
  let w0 := fresh pool_at max_total_memory enable_tls 8 h in
  ∃ w1 hdr,
    allocate answer size w0 = Some (answer + 32, w1) ∧
    Memory_Block_Header.size hdr
      = class_size default_config (find_pool_index default_config size) ∧
    handed_out w1 (answer + 32) hdr ∧
    pools_aligned w1 ∧
    no_null_cached w1.
Proof.
  intros Hs Ha Hpool w0.
  set (i := find_pool_index default_config size).
  assert (Hi8 : 0 ≤ i < 8).
  { pose proof (small_class_cases size Hs) as Hc. cbv zeta in Hc. fold i in Hc. lia. }
  pose proof (class_size_range i Hi8) as Hcr.
  destruct (allocate_fresh_small pool_at max_total_memory enable_tls 8
              h answer size i) as (w1 & E & Hp & Hcfg & Hsh & Hst & Hpl & Htls & Hh);
    [lia | done | lia | done |].
  rewrite (align_up_class_8 i Hi8) in Hpl, Hh.
  change (header_size (fresh pool_at max_total_memory enable_tls 8 h)) with 32
    in E, Hp, Hh.
  fold w0 in E, Hcfg, Hpl.
  set (class := class_size default_config i) in *.
  assert (Hhs : header_size w1 = 32) by (unfold header_size; by rewrite Hcfg).
  exists w1, (Memory_Block_Header.mk class class true (pool_at (Z.to_nat i))).
  split; [exact E|]. split; [done|].
  split; [|split].
  - split; [exact Hp|].
    split. { rewrite Hhs, Hh. replace (answer + 32 - 32) with answer by lia.
             simpl. apply lookup_insert_eq. }
    split; [apply Hpool|].
    assert (Hidx : find_pool_index (config_ (pool w1)) class = i)
      by (rewrite Hcfg; apply (find_pool_index_class i Hi8)).
    simpl. rewrite Hidx.
    split; [lia|].
    split. { rewrite Hpl, list_lookup_insert_eq by (simpl; lia). done. }
    split. { unfold tls_cached. rewrite Htls. destruct enable_tls; apply not_elem_of_nil. }
    split. { unfold pool_free. rewrite Hpl. intros H.
             apply pool_free_insert in H as [H|H]; by apply elem_of_nil in H. }
    exists (wrap (32 + class)). split.
    + rewrite Hhs, Hh. replace (answer + 32 - 32) with answer by lia.
      simpl. apply lookup_insert_eq.
    + rewrite Hhs, wrap_small by (unfold size_t_modulus; lia). lia.
  - unfold pools_aligned. rewrite Hpl, Hcfg. apply Forall_insert; [|done].
    apply (fresh_pools_aligned pool_at max_total_memory enable_tls 8 h).
  - apply (allocate_no_null_cached _ _ _ _ _ E). apply fresh_no_null_cached.
Qed.

(** * Further properties of the code *)

(** ** Rounding up to the alignment *)

Lemma land_wrap_r x y : 0 ≤ x < size_t_modulus → Z.land x (wrap y) = Z.land x y.
Proof.
  intros Hx. unfold wrap, size_t_modulus.
  rewrite <- (Z.land_ones y 64) by lia.
  rewrite (Z.land_comm y), Z.land_assoc, (Z.land_ones x 64) by lia.
  by rewrite Z.mod_small.
Qed.

Lemma align_up_pow2 n k :
  0 ≤ k → 0 ≤ n → n + 2 ^ k ≤ size_t_modulus →
  align_up n (2 ^ k) = 2 ^ k * ((n + 2 ^ k - 1) / 2 ^ k).
Proof.
  intros Hk Hn Hb.
  assert (Hpos : 0 < 2 ^ k) by (apply Z.pow_pos_nonneg; lia).
  unfold align_up, bit_not.
  rewrite (wrap_small (n + 2 ^ k - 1)) by lia.
  rewrite (wrap_small (2 ^ k - 1)) by lia.
  rewrite land_wrap_r by lia.
  replace (2 ^ k - 1) with (Z.ones k) by (rewrite Z.ones_equiv; lia).
  rewrite <- Z.ldiff_land, Z.ldiff_ones_r by lia.
  rewrite Z.shiftr_div_pow2, Z.shiftl_mul_pow2 by lia. lia.
Qed.

Lemma align_up_pow2_bounds n k :
  0 ≤ k → 0 ≤ n → n + 2 ^ k ≤ size_t_modulus →
  align_up n (2 ^ k) mod 2 ^ k = 0 ∧ n ≤ align_up n (2 ^ k) < n + 2 ^ k.
Proof.
  intros Hk Hn Hb.
  assert (Hpos : 0 < 2 ^ k) by (apply Z.pow_pos_nonneg; lia).
  rewrite align_up_pow2 by done.
  split.
  - rewrite Z.mul_comm. apply Z.mod_mul. lia.
  - pose proof (Z.mul_div_le (n + 2 ^ k - 1) (2 ^ k) Hpos).
    pose proof (Z.mul_succ_div_gt (n + 2 ^ k - 1) (2 ^ k) Hpos).
    lia.
Qed.

(** X1. With a power-of-two alignment, and as long as the sum does not
    overflow, the constructor of [Fixed_Size_Pool] rounds the block size up to
    the next multiple of the alignment. *)
Theorem pool_block_size_rounded_up self block_size k :
  0 ≤ k → 0 ≤ block_size → block_size + 2 ^ k ≤ size_t_modulus →
  let p := Fixed_Size_Pool.ctor self block_size (2 ^ k) in
  Fixed_Size_Pool.block_size_ p mod 2 ^ k = 0 ∧
  block_size ≤ Fixed_Size_Pool.block_size_ p < block_size + 2 ^ k.
Proof. intros Hk Hn Hb. simpl. by apply align_up_pow2_bounds. Qed.

Lemma pool_block_size_rounded_up_witness :
  Fixed_Size_Pool.block_size_ (Fixed_Size_Pool.ctor 1000 8 (2 ^ 4)) mod 2 ^ 4 = 0 ∧
  8 ≤ Fixed_Size_Pool.block_size_ (Fixed_Size_Pool.ctor 1000 8 (2 ^ 4)) < 8 + 2 ^ 4.
Proof.
  apply (pool_block_size_rounded_up 1000 8 4); [lia|lia|].
  unfold size_t_modulus. lia.
Defined.

(** X2. On a fresh pool with a power-of-two alignment, a small request that
    the platform serves with an aligned block returns an aligned address. *)
Theorem allocate_result_aligned
    pool_at max_total_memory enable_tls k h answer size :
  0 ≤ k < 64 →
  0 < size ≤ 1024 →
  0 < answer →
  answer mod 2 ^ k = 0 →
  ∃ p w1,
    allocate answer size (fresh pool_at max_total_memory enable_tls (2 ^ k) h)
      = Some (p, w1) ∧
    p ≠ nullptr ∧
    p mod 2 ^ k = 0.
Proof.
  intros Hk Hs Ha Hal.
  assert (H63 : 2 ^ k ≤ 2 ^ 63) by (apply Z.pow_le_mono_r; lia).
  assert (Hb : 32 + 2 ^ k ≤ size_t_modulus) by (unfold size_t_modulus; lia).
  destruct (align_up_pow2_bounds 32 k) as [Hm _]; [lia|lia|done|].
  pose proof (small_class_cases size Hs) as Hc. cbv zeta in Hc.
  destruct (allocate_fresh_small pool_at max_total_memory enable_tls (2 ^ k)
              h answer size (find_pool_index default_config size))
    as (w1 & E & Hp & _); [lia | done | lia | done |].
  eexists _, w1. split; [exact E|]. split; [exact Hp|].
  unfold header_size. simpl.
  unfold sizeof_Memory_Block_Header.
  rewrite Z.add_mod, Hal, Hm by lia. simpl. apply Z.mod_0_l. lia.
Qed.

Lemma allocate_result_aligned_witness :
  ∃ p w1,
    allocate 4096 100 (fresh sample_pool_at 0 true (2 ^ 4) empty_heap)
      = Some (p, w1) ∧
    p ≠ nullptr ∧
    p mod 2 ^ 4 = 0.
Proof.
  apply (allocate_result_aligned sample_pool_at 0 true 4 empty_heap 4096 100);
    [lia | lia | lia | reflexivity].
Defined.

(** ** One pool on its own *)

Lemma wrap_add_l a b : wrap (wrap a + b) = wrap (a + b).
Proof. unfold wrap. apply Zplus_mod_idemp_l. Qed.

Lemma wrap_add_r a b : wrap (a + wrap b) = wrap (a + b).
Proof. unfold wrap. apply Zplus_mod_idemp_r. Qed.

Lemma wrap_wrap a : wrap (wrap a) = wrap a.
Proof. unfold wrap. apply Zmod_mod. Qed.

(** X3. The counters of a [Fixed_Size_Pool] stay consistent: used plus free
    equals the total carved, from construction on and across [allocate] and
    [deallocate], whatever the platform answers. *)
Theorem pool_counters_stay_consistent :
  (∀ self block_size alignment,
     counters_consistent (Fixed_Size_Pool.ctor self block_size alignment)) ∧
  (∀ answer p h,
     counters_consistent p →
     counters_consistent (Fixed_Size_Pool.allocate answer p h).1.2) ∧
  (∀ ptr p h p' h',
     counters_consistent p →
     Fixed_Size_Pool.deallocate ptr p h = Some (p', h') →
     counters_consistent p').
Proof.
  unfold counters_consistent. split; [done|]. split.
  - intros answer p h H. unfold Fixed_Size_Pool.allocate.
    destruct (Fixed_Size_Pool.free_blocks_ p) as [|q rest]; simpl.
    + destruct (std_malloc _ _ h) as [raw h1].
      destruct (raw =? nullptr); simpl; [done|].
      rewrite wrap_add_l, wrap_wrap.
      replace (Fixed_Size_Pool.current_used_ p + 1 + Fixed_Size_Pool.current_free_ p)
        with (Fixed_Size_Pool.current_used_ p + Fixed_Size_Pool.current_free_ p + 1)
        by lia.
      by rewrite <- wrap_add_l, H, wrap_add_l.
    + rewrite wrap_add_l, wrap_add_r. rewrite <- H. f_equal. lia.
  - intros ptr p h p' h' H. unfold Fixed_Size_Pool.deallocate.
    destruct (ptr =? nullptr); [by intros [= <- _]|].
    destruct (headers h !! _) as [hd|]; [|done].
    destruct (_ || _); intros [= <- _]; [done|]. simpl.
    rewrite wrap_add_l, wrap_add_r. rewrite <- H. f_equal. lia.
Qed.

(** X4. A block carved by a pool and given back to it is the next block the
    pool hands out: the second [allocate] returns the same address without
    asking the platform, and only one block was ever carved. *)
Theorem pool_block_recycled answer answer' p h :
  Fixed_Size_Pool.free_blocks_ p = [] →
  0 < answer →
  ∃ ptr p1 h1 p2 h2 p3,
    Fixed_Size_Pool.allocate answer p h = (ptr, p1, h1) ∧
    ptr = answer + Fixed_Size_Pool.header_size p ∧
    Fixed_Size_Pool.deallocate ptr p1 h1 = Some (p2, h2) ∧
    Fixed_Size_Pool.free_blocks_ p2 = [ptr] ∧
    Fixed_Size_Pool.allocate answer' p2 h2 = (ptr, p3, h2) ∧
    Fixed_Size_Pool.free_blocks_ p3 = [] ∧
    Fixed_Size_Pool.total_allocated_ p3
      = wrap (Fixed_Size_Pool.total_allocated_ p + 1) ∧
    live h2 = <[answer := wrap (Fixed_Size_Pool.header_size p
                                + Fixed_Size_Pool.block_size_ p)]> (live h).
Proof.
  intros Hf Ha.
  assert (Hhs : 0 ≤ Fixed_Size_Pool.header_size p) by apply align_up_nonneg.
  assert (Hnz : (answer =? nullptr) = false) by (unfold nullptr; lia).
  assert (Hpz : (answer + Fixed_Size_Pool.header_size p =? nullptr) = false)
    by (unfold nullptr; lia).
  set (hdr := Memory_Block_Header.mk (Fixed_Size_Pool.block_size_ p)
                (Fixed_Size_Pool.block_size_ p) true (Fixed_Size_Pool.this p)).
  set (h1 := set_headers <[answer := hdr]>
               (set_live <[answer := wrap (Fixed_Size_Pool.header_size p
                                           + Fixed_Size_Pool.block_size_ p)]> h)).
  set (h2 := set_headers <[answer := Memory_Block_Header.set_in_use false hdr]> h1).
  set (p1 := Fixed_Size_Pool.mk (Fixed_Size_Pool.this p) (Fixed_Size_Pool.block_size_ p)
               (Fixed_Size_Pool.alignment_ p) []
               (wrap (Fixed_Size_Pool.current_used_ p + 1))
               (Fixed_Size_Pool.current_free_ p)
               (wrap (Fixed_Size_Pool.total_allocated_ p + 1))).
  set (p2 := Fixed_Size_Pool.mk (Fixed_Size_Pool.this p) (Fixed_Size_Pool.block_size_ p)
               (Fixed_Size_Pool.alignment_ p) [answer + Fixed_Size_Pool.header_size p]
               (wrap (Fixed_Size_Pool.current_used_ p1 - 1))
               (wrap (Fixed_Size_Pool.current_free_ p1 + 1))
               (Fixed_Size_Pool.total_allocated_ p1)).
  set (p3 := Fixed_Size_Pool.mk (Fixed_Size_Pool.this p) (Fixed_Size_Pool.block_size_ p)
               (Fixed_Size_Pool.alignment_ p) []
               (wrap (Fixed_Size_Pool.current_used_ p2 + 1))
               (wrap (Fixed_Size_Pool.current_free_ p2 - 1))
               (Fixed_Size_Pool.total_allocated_ p2)).
  exists (answer + Fixed_Size_Pool.header_size p), p1, h1, p2, h2, p3.
  split.
  { unfold Fixed_Size_Pool.allocate, std_malloc. rewrite Hf, Hnz. cbv iota.
    rewrite Hnz. reflexivity. }
  split; [reflexivity|].
  split.
  { unfold Fixed_Size_Pool.deallocate. rewrite Hpz.
    change (Fixed_Size_Pool.header_size p1) with (Fixed_Size_Pool.header_size p).
    replace (answer + Fixed_Size_Pool.header_size p - Fixed_Size_Pool.header_size p)
      with answer by lia.
    change (headers h1) with (<[answer := hdr]> (headers h)).
    rewrite lookup_insert_eq. simpl. rewrite Z.eqb_refl. reflexivity. }
  repeat split; reflexivity.
Qed.

Lemma pool_block_recycled_witness :
  ∃ ptr p1 h1 p2 h2 p3,
    Fixed_Size_Pool.allocate 4096 (Fixed_Size_Pool.ctor 1000 64 8) empty_heap
      = (ptr, p1, h1) ∧
    ptr = 4096 + Fixed_Size_Pool.header_size (Fixed_Size_Pool.ctor 1000 64 8) ∧
    Fixed_Size_Pool.deallocate ptr p1 h1 = Some (p2, h2) ∧
    Fixed_Size_Pool.free_blocks_ p2 = [ptr] ∧
    Fixed_Size_Pool.allocate 8192 p2 h2 = (ptr, p3, h2) ∧
    Fixed_Size_Pool.free_blocks_ p3 = [] ∧
    Fixed_Size_Pool.total_allocated_ p3
      = wrap (Fixed_Size_Pool.total_allocated_ (Fixed_Size_Pool.ctor 1000 64 8) + 1) ∧
    live h2 = <[4096 := wrap (Fixed_Size_Pool.header_size (Fixed_Size_Pool.ctor 1000 64 8)
                              + Fixed_Size_Pool.block_size_ (Fixed_Size_Pool.ctor 1000 64 8))]>
                (live empty_heap).
Proof.
  apply (pool_block_recycled 4096 8192 (Fixed_Size_Pool.ctor 1000 64 8) empty_heap);
    [reflexivity | lia].
Defined.

(** X5. [Fixed_Size_Pool::allocate] hands a block of the free list out with
    its header untouched, so [in_use] is still false; a later [deallocate] of
    that block on the pool is turned away and changes nothing: the block does
    not come back to the free list. *)
Theorem recycled_block_is_turned_away answer p h q rest hd :
  Fixed_Size_Pool.free_blocks_ p = q :: rest →
  q ≠ nullptr →
  headers h !! (q - Fixed_Size_Pool.header_size p) = Some hd →
  Memory_Block_Header.in_use hd = false →
  ∃ p1,
    Fixed_Size_Pool.allocate answer p h = (q, p1, h) ∧
    Fixed_Size_Pool.free_blocks_ p1 = rest ∧
    Fixed_Size_Pool.deallocate q p1 h = Some (p1, h).
Proof.
  intros Hf Hq Hh Hu.
  unfold Fixed_Size_Pool.allocate. rewrite Hf.
  eexists. split; [reflexivity|]. split; [reflexivity|].
  unfold Fixed_Size_Pool.deallocate.
  apply Z.eqb_neq in Hq. rewrite Hq.
  change (Fixed_Size_Pool.header_size (Fixed_Size_Pool.mk _ _ _ _ _ _ _))
    with (Fixed_Size_Pool.header_size p).
  rewrite Hh, Hu. simpl. by rewrite orb_true_r.
Qed.

Lemma recycled_block_is_turned_away_witness :
  ∃ p1,
    Fixed_Size_Pool.allocate 8192 (Fixed_Size_Pool.mk 1000 64 8 [4128] 0 1 1)
      (mkHeap {[ 4096 := Memory_Block_Header.mk 64 64 false 1000 ]} ∅ {[ 4096 := 96 ]})
    = (4128, p1,
       mkHeap {[ 4096 := Memory_Block_Header.mk 64 64 false 1000 ]} ∅ {[ 4096 := 96 ]}) ∧
    Fixed_Size_Pool.free_blocks_ p1 = [] ∧
    Fixed_Size_Pool.deallocate 4128 p1
      (mkHeap {[ 4096 := Memory_Block_Header.mk 64 64 false 1000 ]} ∅ {[ 4096 := 96 ]})
    = Some (p1,
            mkHeap {[ 4096 := Memory_Block_Header.mk 64 64 false 1000 ]} ∅ {[ 4096 := 96 ]}).
Proof.
  apply (recycled_block_is_turned_away 8192 (Fixed_Size_Pool.mk 1000 64 8 [4128] 0 1 1)
           (mkHeap {[ 4096 := Memory_Block_Header.mk 64 64 false 1000 ]} ∅ {[ 4096 := 96 ]})
           4128 [] (Memory_Block_Header.mk 64 64 false 1000)).
  - reflexivity.
  - unfold nullptr. lia.
  - reflexivity.
  - reflexivity.
Defined.

(** X6. On one pool, [deallocate] of the same address a second time changes
    nothing, whatever the first call did: the header check
    [pool_ptr == this && in_use] makes the call idempotent. *)
Theorem pool_deallocate_idempotent ptr p h p1 h1 :
  Fixed_Size_Pool.deallocate ptr p h = Some (p1, h1) →
  Fixed_Size_Pool.deallocate ptr p1 h1 = Some (p1, h1).
Proof.
  unfold Fixed_Size_Pool.deallocate.
  destruct (ptr =? nullptr) eqn:Ep; [by intros [= <- <-]|].
  destruct (headers h !! _) as [hd|] eqn:Eh; [|done].
  destruct (negb _ || negb _) eqn:Eg.
  - intros [= <- <-]. by rewrite Eh, Eg.
  - intros [= <- <-].
    change (Fixed_Size_Pool.header_size (Fixed_Size_Pool.mk _ _ _ _ _ _ _))
      with (Fixed_Size_Pool.header_size p).
    simpl headers. rewrite lookup_insert_eq. simpl. by rewrite orb_true_r.
Qed.

Lemma pool_deallocate_idempotent_witness :
  Fixed_Size_Pool.deallocate 4128 (Fixed_Size_Pool.mk 1000 64 8 [4128] 0 1 1)
    (mkHeap {[ 4096 := Memory_Block_Header.mk 64 64 false 1000 ]} ∅ {[ 4096 := 96 ]})
  = Some (Fixed_Size_Pool.mk 1000 64 8 [4128] 0 1 1,
          mkHeap {[ 4096 := Memory_Block_Header.mk 64 64 false 1000 ]} ∅ {[ 4096 := 96 ]}).
Proof.
  apply (pool_deallocate_idempotent 4128
           (Fixed_Size_Pool.mk 1000 64 8 [] 1 0 1)
           (mkHeap {[ 4096 := Memory_Block_Header.mk 64 64 true 1000 ]} ∅ {[ 4096 := 96 ]})).
  reflexivity.
Defined.

(** ** The thread's cache in front of the pools *)

Lemma get_tls_cache_existing w c :
  enable_tls (config_ (pool w)) = true →
  tls_cache w = Some c →
  get_tls_cache w = (Some c, w).
Proof. intros He Hc. unfold get_tls_cache. by rewrite He, Hc. Qed.

Lemma allocate_tls_hit answer size w i c v ptr :
  shutdown_ (pool w) = false →
  size ≠ 0 →
  find_pool_index (config_ (pool w)) size = i →
  0 ≤ i →
  enable_tls (config_ (pool w)) = true →
  tls_cache w = Some c →
  Thread_Local_Cache.cache c !!! Z.to_nat i = v ++ [ptr] →
  ptr ≠ nullptr →
  allocate answer size w =
    Some (ptr,
          set_stats (add_current_used (class_size (config_ (pool w)) i))
            (set_stats (add_total_allocated (class_size (config_ (pool w)) i))
               (set_tls (Some (Thread_Local_Cache.set_slot (Z.to_nat i) v c))
                  (set_stats incr_alloc_count w)))).
Proof.
  intros Hsh Hs Hi Hi0 He Hc Hv Hp.
  assert (Hi8 : i < 8).
  { subst i. destruct (find_pool_index_range (config_ (pool w)) size); lia. }
  unfold allocate. rewrite Hsh.
  apply Z.eqb_neq in Hs. rewrite Hs. simpl orb. cbv iota.
  change (config_ (pool (set_stats incr_alloc_count w))) with (config_ (pool w)).
  rewrite Hi.
  assert ((i >=? 0) = true) as -> by lia.
  unfold allocate_from_tls.
  rewrite (get_tls_cache_existing _ c) by done.
  assert ((i <? 0) = false) as -> by lia.
  assert ((i >=? 8) = false) as -> by lia.
  simpl orb. cbv iota. rewrite Hv, last_snoc, removelast_last.
  apply Z.eqb_neq in Hp. rewrite Hp. reflexivity.
Qed.

(** X7. A pool block that [deallocate] stashes in the thread's cache is what
    the next [allocate] of that class returns, without the pools or the
    platform being touched: heap, pools and the cache end as they began.  The
    byte statistics do not cancel: the pair of calls leaves [current_used] and
    [total_allocated] raised by the class size and [total_freed] as it was. *)
Theorem stash_then_allocate answer size ptr w hdr i fp c :
  ptr ≠ nullptr →
  headers (heap w) !! (ptr - header_size w) = Some hdr →
  Memory_Block_Header.pool_ptr hdr ≠ nullptr →
  find_pool_index (config_ (pool w)) (Memory_Block_Header.block_size hdr) = i →
  0 ≤ i →
  pools_ (pool w) !! Z.to_nat i = Some fp →
  Memory_Block_Header.pool_ptr hdr = Fixed_Size_Pool.this fp →
  enable_tls (config_ (pool w)) = true →
  tls_cache w = Some c →
  (Z.to_nat i < length (Thread_Local_Cache.cache c))%nat →
  Z.of_nat (length (Thread_Local_Cache.cache c !!! Z.to_nat i))
    < Thread_Local_Cache.cache_size c →
  shutdown_ (pool w) = false →
  size ≠ 0 →
  find_pool_index (config_ (pool w)) size = i →
  ∃ w1 w2,
    deallocate ptr w = Some w1 ∧
    allocate answer size w1 = Some (ptr, w2) ∧
    heap w2 = heap w ∧
    pools_ (pool w2) = pools_ (pool w) ∧
    tls_cache w2 = tls_cache w ∧
    current_used (stats_ (pool w2))
      = wrap (current_used (stats_ (pool w)) + class_size (config_ (pool w)) i) ∧
    total_allocated (stats_ (pool w2))
      = wrap (total_allocated (stats_ (pool w)) + class_size (config_ (pool w)) i) ∧
    total_freed (stats_ (pool w2)) = total_freed (stats_ (pool w)).
Proof.
  intros Hp Hh Hn Hi Hi0 Hfp Ho He Hc Hlen Hcap Hsh Hs Hsi.
  assert (Hi8 : i < 8).
  { subst i. destruct (find_pool_index_range (config_ (pool w)) size); lia. }
  pose proof (deallocate_pool_block ptr w hdr fp Hp Hh Hn) as D.
  cbv zeta in D. rewrite Hi in D. rewrite (D Hi0 Hfp Ho). clear D.
  rewrite (return_to_tls_accepts i ptr _ c) by (done || lia).
  set (v := Thread_Local_Cache.cache c !!! Z.to_nat i) in *.
  set (c1 := Thread_Local_Cache.set_slot (Z.to_nat i) (v ++ [ptr]) c).
  eexists. eexists. split; [reflexivity|].
  rewrite (allocate_tls_hit answer size _ i c1 v ptr); try done.
  - split; [reflexivity|]. simpl.
    repeat split; try reflexivity.
    destruct c as [l n]. rewrite Hc. unfold c1, Thread_Local_Cache.set_slot. simpl.
    simpl in v, Hlen.
    rewrite list_insert_insert_eq, list_insert_id; [done|].
    unfold v. apply list_lookup_lookup_total_lt. done.
  - unfold c1. simpl. apply list_lookup_total_insert_eq. done.
Qed.

Lemma stash_then_allocate_witness :
  ∃ w1 w2,
    deallocate 4128 sample_world_1 = Some w1 ∧
    allocate nullptr 50 w1 = Some (4128, w2) ∧
    heap w2 = heap sample_world_1 ∧
    pools_ (pool w2) = pools_ (pool sample_world_1) ∧
    tls_cache w2 = tls_cache sample_world_1 ∧
    current_used (stats_ (pool w2))
      = wrap (current_used (stats_ (pool sample_world_1))
              + class_size (config_ (pool sample_world_1)) 3) ∧
    total_allocated (stats_ (pool w2))
      = wrap (total_allocated (stats_ (pool sample_world_1))
              + class_size (config_ (pool sample_world_1)) 3) ∧
    total_freed (stats_ (pool w2)) = total_freed (stats_ (pool sample_world_1)).
Proof.
  apply (stash_then_allocate nullptr 50 4128 sample_world_1
           (Memory_Block_Header.mk 64 64 true (sample_pool_at 3)) 3
           (Fixed_Size_Pool.mk (sample_pool_at 3) 64 8 [] 1 0 1)
           (Thread_Local_Cache.mk (replicate 8 []) 16)).
  - unfold nullptr. lia.
  - reflexivity.
  - intros H. vm_compute in H. discriminate H.
  - reflexivity.
  - lia.
  - reflexivity.
  - reflexivity.
  - reflexivity.
  - reflexivity.
  - simpl. lia.
  - simpl. lia.
  - reflexivity.
  - lia.
  - reflexivity.
Defined.

Lemma stash_length_bound (c : Thread_Local_Cache.t) (n : nat) :
  0 ≤ Thread_Local_Cache.cache_size c →
  Forall (λ v, Z.of_nat (length v) ≤ Thread_Local_Cache.cache_size c)
         (Thread_Local_Cache.cache c) →
  Z.of_nat (length (Thread_Local_Cache.cache c !!! n)) ≤ Thread_Local_Cache.cache_size c.
Proof.
  intros H0 HF. rewrite list_lookup_total_alt.
  destruct (Thread_Local_Cache.cache c !! n) as [v|] eqn:E; simpl; [|lia].
  apply (Forall_lookup_1 _ _ _ _ HF E).
Qed.

Lemma get_tls_cache_bounded w : tls_bounded w → tls_bounded (get_tls_cache w).2.
Proof.
  unfold tls_bounded, get_tls_cache. intros [H0 H].
  destruct (enable_tls _); simpl; [|done].
  destruct (tls_cache w) eqn:E; simpl; [by rewrite E|].
  split; [done|]. split; [done|]. repeat constructor; simpl; lia.
Qed.

Lemma allocate_from_tls_bounded i w :
  tls_bounded w → tls_bounded (allocate_from_tls i w).2.
Proof.
  intros H. apply get_tls_cache_bounded in H. revert H.
  unfold allocate_from_tls.
  pose proof (get_tls_cache_some w) as HS.
  destruct (get_tls_cache w) as [[c|] w1]; cbn [fst snd] in *; [|done].
  specialize (HS c eq_refl).
  destruct (_ || _); cbn [snd]; [done|].
  destruct (last _) as [p|] eqn:El; cbn [snd]; [|done].
  unfold tls_bounded. simpl. rewrite HS. intros [H0 [Hc HF]].
  split; [done|]. split; [done|].
  apply Forall_insert; [done|].
  pose proof (stash_length_bound c (Z.to_nat i) Hc HF) as Hb.
  apply last_Some in El as [l' El]. rewrite El in Hb |- *.
  rewrite removelast_last. rewrite length_app in Hb. lia.
Qed.

Lemma return_to_tls_bounded i ptr w :
  tls_bounded w → tls_bounded (return_to_tls i ptr w).2.
Proof.
  intros H. apply get_tls_cache_bounded in H. revert H.
  unfold return_to_tls.
  pose proof (get_tls_cache_some w) as HS.
  destruct (get_tls_cache w) as [[c|] w1]; cbn [fst snd] in *; [|done].
  specialize (HS c eq_refl).
  destruct (_ || _); cbn [snd]; [done|].
  destruct (Z.of_nat _ <? _) eqn:El; cbn [snd]; [|done].
  unfold tls_bounded. simpl. rewrite HS. intros [H0 [Hc HF]].
  split; [done|]. split; [done|].
  apply Forall_insert; [done|].
  rewrite length_app. simpl. lia.
Qed.

Lemma tls_bounded_ext w w' :
  config_ (pool w') = config_ (pool w) →
  tls_cache w' = tls_cache w →
  tls_bounded w → tls_bounded w'.
Proof. unfold tls_bounded. by intros -> ->. Qed.

Lemma allocate_bounded answer size w p w1 :
  allocate answer size w = Some (p, w1) → tls_bounded w → tls_bounded w1.
Proof.
  unfold allocate. intros E Hb.
  destruct (_ || _); [by injection E as <- <-|].
  set (W := set_stats incr_alloc_count w) in *.
  set (i := find_pool_index _ size) in *. clearbody i.
  destruct (i >=? 0).
  - pose proof (allocate_from_tls_bounded i W Hb) as HB.
    destruct (allocate_from_tls i W) as [q W']. cbn [snd] in HB.
    destruct (negb (q =? nullptr)); [by injection E as <- <-|].
    destruct (pools_ (pool W') !! Z.to_nat i) as [fp|]; [|done].
    destruct (Fixed_Size_Pool.allocate answer fp (heap W')) as [[r fp'] h'].
    destruct (negb (r =? nullptr)); by injection E as <- <-.
  - destruct (std_malloc _ _ _) as [r h'].
    destruct (negb (r =? nullptr)); by injection E as <- <-.
Qed.

Lemma deallocate_bounded ptr w w' :
  deallocate ptr w = Some w' → tls_bounded w → tls_bounded w'.
Proof.
  unfold deallocate. intros E Hb.
  destruct (ptr =? nullptr); [by injection E as <-|].
  set (W := set_stats incr_free_count w) in *.
  destruct (headers (heap W) !! _) as [hdr|]; [|done].
  set (release := std_free _ _ ≫= _) in *.
  assert (Hrel : release = Some w' → tls_bounded w').
  { unfold release. destruct (std_free _ _) as [h'|]; simpl; [|done].
    by intros [= <-]. }
  clearbody release.
  destruct (negb _); [|by apply Hrel].
  set (i := find_pool_index _ _) in *. clearbody i.
  destruct (if i >=? 0 then _ else _) as [fp|];
    [|destruct (i >=? 0); [done|by apply Hrel]].
  destruct (_ =? Fixed_Size_Pool.this fp); [|by apply Hrel].
  pose proof (return_to_tls_bounded i ptr W Hb) as HB.
  destruct (return_to_tls i ptr W) as [acc w1]. cbn [snd] in HB.
  destruct acc; [by injection E as <-|].
  destruct (Fixed_Size_Pool.deallocate ptr fp (heap w1)) as [[fp' h']|];
    simpl in E; [|done].
  by injection E as <-.
Qed.

(** X8. A stash of the thread's cache never grows past the cache's capacity:
    this holds on a fresh pool and is kept by [allocate], [deallocate] and
    [reallocate]. *)
Theorem stashes_stay_within_capacity :
  (∀ pool_at max_total_memory enable_tls alignment h,
     tls_bounded (fresh pool_at max_total_memory enable_tls alignment h)) ∧
  (∀ answer size w p w1,
     tls_bounded w → allocate answer size w = Some (p, w1) → tls_bounded w1) ∧
  (∀ ptr w w',
     tls_bounded w → deallocate ptr w = Some w' → tls_bounded w') ∧
  (∀ answer ptr new_size w p w',
     tls_bounded w → reallocate answer ptr new_size w = Some (p, w') →
     tls_bounded w').
Proof.
  split; [intros; split; simpl; [lia|done]|].
  split; [intros answer size w p w1 Hb E; by apply (allocate_bounded _ _ _ _ _ E)|].
  split; [intros ptr w w' Hb E; by apply (deallocate_bounded _ _ _ E)|].
  intros answer ptr new_size w p w' Hb. unfold reallocate.
  destruct (ptr =? nullptr); [intros E; by apply (allocate_bounded _ _ _ _ _ E)|].
  destruct (headers (heap w) !! _) as [hdr|]; [|done].
  destruct (_ && _); [by intros [= <- <-]|].
  destruct (allocate answer new_size w) as [[q w1]|] eqn:EA; simpl; [|done].
  pose proof (allocate_bounded _ _ _ _ _ EA Hb) as Hb1.
  destruct (q =? nullptr); [by intros [= <- <-]|].
  destruct (deallocate ptr _) as [w2|] eqn:ED; simpl; [|done].
  intros [= <- <-]. by apply (deallocate_bounded _ _ _ ED).
Qed.

(** X9. No stash and no free list ever holds [nullptr]: this holds on a
    fresh pool and is kept by [allocate], [deallocate] and [reallocate]. *)
Theorem caches_never_hold_nullptr :
  (∀ pool_at max_total_memory enable_tls alignment h,
     no_null_cached (fresh pool_at max_total_memory enable_tls alignment h)) ∧
  (∀ answer size w p w1,
     no_null_cached w → allocate answer size w = Some (p, w1) → no_null_cached w1) ∧
  (∀ ptr w w',
     no_null_cached w → deallocate ptr w = Some w' → no_null_cached w') ∧
  (∀ answer ptr new_size w p w',
     no_null_cached w → reallocate answer ptr new_size w = Some (p, w') →
     no_null_cached w').
Proof.
  split; [apply fresh_no_null_cached|].
  split; [intros answer size w p w1 H E; by apply (allocate_no_null_cached _ _ _ _ _ E)|].
  split; [intros ptr w w' H E; by apply (deallocate_no_null_cached _ _ _ E)|].
  intros answer ptr new_size w p w' H E.
  by apply (reallocate_no_null_cached _ _ _ _ _ _ E).
Qed.

(** ** Statistics *)

Lemma allocate_stats answer size w p w1 :
  shutdown_ (pool w) = false →
  size ≠ 0 →
  allocate answer size w = Some (p, w1) →
  alloc_count (stats_ (pool w1)) = wrap (alloc_count (stats_ (pool w)) + 1) ∧
  fragment_count (stats_ (pool w1)) = fragment_count (stats_ (pool w)) ∧
  (p = nullptr → stats_ (pool w1) = incr_alloc_count (stats_ (pool w))).
Proof.
  intros Hsh Hs. unfold allocate. rewrite Hsh.
  apply Z.eqb_neq in Hs. rewrite Hs. simpl orb. cbv iota.
  set (W := set_stats incr_alloc_count w).
  set (i := find_pool_index _ size). clearbody i.
  destruct (i >=? 0).
  - pose proof (allocate_from_tls_pool i W) as HP.
    destruct (allocate_from_tls i W) as [q W']. cbn [snd] in HP.
    destruct (q =? nullptr) eqn:Hq; simpl.
    + destruct (pools_ (pool W') !! Z.to_nat i) as [fp|]; [|done].
      destruct (Fixed_Size_Pool.allocate answer fp (heap W')) as [[r fp'] h'].
      destruct (r =? nullptr) eqn:Hr; simpl; intros [= <- <-]; simpl; rewrite HP;
        (split; [done|]); (split; [done|]); [done|].
      intros ->. by rewrite Z.eqb_refl in Hr.
    + intros [= <- <-]. simpl. rewrite HP. split; [done|]. split; [done|].
      intros ->. by rewrite Z.eqb_refl in Hq.
  - destruct (std_malloc _ _ _) as [r h'].
    destruct (r =? nullptr) eqn:Hr; simpl; intros [= <- <-];
      (split; [done|]); (split; [done|]); [done|].
    intros ->. by rewrite Z.eqb_refl in Hr.
Qed.

(** X10. [alloc_count] counts calls, not successes: every [allocate] that
    passes the zero-size and shutdown test adds one to it, and when the call
    then fails that is the only statistic it changes. *)
Theorem allocate_counts_every_attempt answer size w p w1 :
  shutdown_ (pool w) = false →
  size ≠ 0 →
  allocate answer size w = Some (p, w1) →
  alloc_count (stats_ (pool w1)) = wrap (alloc_count (stats_ (pool w)) + 1) ∧
  (p = nullptr → stats_ (pool w1) = incr_alloc_count (stats_ (pool w))).
Proof.
  intros Hsh Hs E.
  destruct (allocate_stats _ _ _ _ _ Hsh Hs E) as (H1 & _ & H2). by split.
Qed.

Lemma allocate_counts_every_attempt_witness :
  alloc_count (stats_ (pool sample_world_failed))
    = wrap (alloc_count (stats_ (pool sample_world_1)) + 1) ∧
  (nullptr = nullptr →
   stats_ (pool sample_world_failed) = incr_alloc_count (stats_ (pool sample_world_1))).
Proof.
  apply (allocate_counts_every_attempt nullptr 200 sample_world_1 nullptr
           sample_world_failed).
  - reflexivity.
  - lia.
  - reflexivity.
Defined.

Lemma deallocate_fragment_count ptr w w' :
  deallocate ptr w = Some w' →
  fragment_count (stats_ (pool w')) = fragment_count (stats_ (pool w)).
Proof.
  unfold deallocate.
  destruct (ptr =? nullptr); [by intros [= <-]|].
  set (W := set_stats incr_free_count w).
  destruct (headers (heap W) !! _) as [hdr|]; [|done].
  set (release := std_free _ _ ≫= _).
  assert (Hrel : release = Some w' →
                 fragment_count (stats_ (pool w')) = fragment_count (stats_ (pool w))).
  { unfold release. destruct (std_free _ _) as [h'|]; simpl; [|done].
    by intros [= <-]. }
  clearbody release.
  destruct (negb _); [|done].
  set (i := find_pool_index _ _). clearbody i.
  destruct (if i >=? 0 then _ else _) as [fp|]; [|by destruct (i >=? 0)].
  destruct (_ =? Fixed_Size_Pool.this fp); [|done].
  pose proof (return_to_tls_pool i ptr W) as HP.
  destruct (return_to_tls i ptr W) as [[] w1]; cbn [snd] in HP.
  - intros [= <-]. by rewrite HP.
  - destruct (Fixed_Size_Pool.deallocate ptr fp (heap w1)) as [[fp' h']|]; simpl; [|done].
    intros [= <-]. simpl. by rewrite HP.
Qed.

(** X11. [cleanup_idle_blocks], and with it [cleanup()], only stores [0]
    into [fragment_count].  Nothing else writes that counter: it is [0] on a
    fresh pool and [allocate] and [deallocate] keep it, so wherever it is
    [0] a cleanup pass leaves the whole state as it was. *)
Theorem cleanup_changes_nothing :
  (∀ pool_at max_total_memory enable_tls alignment h,
     fragment_count
       (stats_ (pool (fresh pool_at max_total_memory enable_tls alignment h))) = 0) ∧
  (∀ answer size w p w1,
     allocate answer size w = Some (p, w1) →
     fragment_count (stats_ (pool w1)) = fragment_count (stats_ (pool w))) ∧
  (∀ ptr w w',
     deallocate ptr w = Some w' →
     fragment_count (stats_ (pool w')) = fragment_count (stats_ (pool w))) ∧
  (∀ w, fragment_count (stats_ (pool w)) = 0 → cleanup_idle_blocks w = w).
Proof.
  split; [done|]. split; [|split].
  - intros answer size w p w1 E.
    destruct (shutdown_ (pool w)) eqn:Hsh.
    { unfold allocate in E. rewrite Hsh in E. by injection E as <- <-. }
    destruct (decide (size = 0)) as [->|Hs].
    { unfold allocate in E. rewrite Hsh in E. by injection E as <- <-. }
    by destruct (allocate_stats _ _ _ _ _ Hsh Hs E) as (_ & H & _).
  - intros ptr w w'. apply deallocate_fragment_count.
  - intros [[cfg [ta tf cu cf ac fc fr] pls sh] tlsc hp]. simpl. by intros ->.
Qed.

(** ** Reallocation to nothing *)

(** X12. [reallocate(ptr, 0)] is not a [free]: for a block with a header it
    returns [nullptr] and leaves the whole state as it was, the block still
    allocated. *)
Theorem reallocate_to_zero_keeps_block answer ptr w hdr :
  ptr ≠ nullptr →
  headers (heap w) !! (ptr - header_size w) = Some hdr →
  0 ≤ Memory_Block_Header.size hdr →
  reallocate answer ptr 0 w = Some (nullptr, w).
Proof.
  intros Hp Hh H0. unfold reallocate.
  apply Z.eqb_neq in Hp. rewrite Hp, Hh.
  assert ((0 >? Memory_Block_Header.size hdr / 2) = false) as ->.
  { pose proof (Z.div_pos (Memory_Block_Header.size hdr) 2). lia. }
  rewrite andb_false_r.
  unfold allocate. by rewrite orb_true_r.
Qed.

Lemma reallocate_to_zero_keeps_block_witness :
  reallocate 8192 4128 0 sample_world_1 = Some (nullptr, sample_world_1).
Proof.
  apply (reallocate_to_zero_keeps_block 8192 4128 sample_world_1
           (Memory_Block_Header.mk 64 64 true (sample_pool_at 3))).
  - unfold nullptr. lia.
  - reflexivity.
  - simpl. lia.
Defined.

(** ** Blocks the caller holds *)

Lemma pool_allocate_effect answer fp h :
  let '(r, fp', h') := Fixed_Size_Pool.allocate answer fp h in
  Fixed_Size_Pool.this fp' = Fixed_Size_Pool.this fp ∧
  Fixed_Size_Pool.alignment_ fp' = Fixed_Size_Pool.alignment_ fp ∧
  (∀ x, x ∈ Fixed_Size_Pool.free_blocks_ fp' → x ∈ Fixed_Size_Pool.free_blocks_ fp) ∧
  (∀ a, a ≠ answer → live h' !! a = live h !! a).
Proof.
  unfold Fixed_Size_Pool.allocate.
  destruct (Fixed_Size_Pool.free_blocks_ fp) as [|q rest] eqn:Ef.
  - unfold std_malloc. destruct (answer =? nullptr) eqn:Ea.
    + simpl. rewrite Ef. done.
    + rewrite Ea. simpl. repeat split; try done.
      intros a Ha. by rewrite lookup_insert_ne.
  - simpl. repeat split; try done. intros x Hx. by right.
Qed.

Lemma allocate_effect answer size w p w1 :
  allocate answer size w = Some (p, w1) →
  (∀ x, x ∈ tls_cached w1 → x ∈ tls_cached w) ∧
  (∀ a, a ≠ answer → live (heap w1) !! a = live (heap w) !! a) ∧
  (pools_ (pool w1) = pools_ (pool w) ∨
   ∃ i fp fp',
     pools_ (pool w) !! i = Some fp ∧
     pools_ (pool w1) = <[i := fp']> (pools_ (pool w)) ∧
     Fixed_Size_Pool.this fp' = Fixed_Size_Pool.this fp ∧
     Fixed_Size_Pool.alignment_ fp' = Fixed_Size_Pool.alignment_ fp ∧
     ∀ x, x ∈ Fixed_Size_Pool.free_blocks_ fp' → x ∈ Fixed_Size_Pool.free_blocks_ fp).
Proof.
  unfold allocate.
  destruct (_ || _); [intros [= <- <-]; repeat split; eauto|].
  set (W := set_stats incr_alloc_count w).
  set (i := find_pool_index _ size). clearbody i.
  destruct (i >=? 0).
  - pose proof (allocate_from_tls_pool i W) as HP.
    pose proof (allocate_from_tls_heap i W) as HH.
    pose proof (allocate_from_tls_cached i W) as HC.
    destruct (allocate_from_tls i W) as [q W']. cbn [fst snd] in HP, HH, HC.
    change (tls_cached W) with (tls_cached w) in HC.
    change (heap W) with (heap w) in HH.
    destruct (negb (q =? nullptr)).
    + intros [= <- <-]. simpl. rewrite HP, HH. repeat split; eauto.
    + rewrite HP. change (pools_ (pool W)) with (pools_ (pool w)).
      destruct (pools_ (pool w) !! Z.to_nat i) as [fp|] eqn:Efp; [|done].
      pose proof (pool_allocate_effect answer fp (heap W')) as HA.
      destruct (Fixed_Size_Pool.allocate answer fp (heap W')) as [[r fp'] h'].
      destruct HA as (H1 & H2 & H3 & H4). rewrite HH in H4.
      destruct (negb (r =? nullptr)); intros [= <- <-]; simpl; rewrite HP;
        (split; [done|]); (split; [done|]); right; exists (Z.to_nat i), fp, fp'; done.
  - unfold std_malloc. destruct (answer =? nullptr) eqn:Ea.
    + simpl. intros [= <- <-]. repeat split; eauto.
    + rewrite Ea. simpl. intros [= <- <-]. simpl. repeat split; eauto.
      intros a Ha. by rewrite lookup_insert_ne.
Qed.

(** X13. [allocate] never returns an address the caller still holds, and
    the held block stays as it is: on a pool whose pools share the pool-wide
    alignment, with a platform that answers outside live blocks, a block that
    is handed out is still handed out, with the same header, after any
    [allocate], and the address returned is a different one. *)
Theorem held_block_stays_held answer size w ptr hdr p w1 :
  pools_aligned w →
  handed_out w ptr hdr →
  fresh_answer answer w →
  allocate answer size w = Some (p, w1) →
  p ≠ ptr ∧ handed_out w1 ptr hdr ∧ pools_aligned w1.
Proof.
  intros Hal (Hp & Hh & Hn & Hi & Hthis & Htls & Hfree & sz & Hlive & Hsz)
    [Ha Hfresh] E.
  assert (Hhs : 0 ≤ header_size w) by apply align_up_nonneg.
  pose proof (Hfresh _ _ Hlive) as Hb. simpl in Hb.
  destruct (allocate_frame _ _ _ _ _ E) as (Hcfg & Hdata & Hhdrs & Hpools & Horigin).
  destruct (allocate_effect _ _ _ _ _ E) as (Hsubt & Hlv & Hpl).
  assert (Hhs1 : header_size w1 = header_size w)
    by (unfold header_size; by rewrite Hcfg).
  assert (Hsubf : ∀ x, x ∈ pool_free w1 → x ∈ pool_free w).
  { unfold pool_free at 1.
    destruct Hpl as [->|(i & fp & fp' & Ei & -> & _ & _ & Hf)]; [done|].
    intros x Hx. apply pool_free_insert in Hx as [Hx|Hx]; [|done].
    apply (elem_of_pool_free w _ fp _ Ei). by apply Hf. }
  split; [|split].
  - destruct Horigin as [->|[?|[?|[Hne [->| (j & fpj & Ej & ->)]]]]];
      [done|congruence|congruence|lia|].
    assert (Fixed_Size_Pool.header_size fpj = header_size w) as ->.
    { unfold Fixed_Size_Pool.header_size, header_size.
      by rewrite (Forall_lookup_1 _ _ _ _ Hal Ej). }
    lia.
  - split; [done|].
    split; [rewrite Hhs1, Hhdrs; [done|lia]|].
    split; [done|].
    rewrite Hcfg. split; [done|].
    split.
    { destruct (pools_ (pool w) !! _) as [fp|] eqn:Efp; [|done].
      destruct (Hpools _ _ Efp) as (fp1 & -> & Ht & _). simpl in *. congruence. }
    split; [intros H; by apply Htls, Hsubt|].
    split; [intros H; by apply Hfree, Hsubf|].
    exists sz. rewrite Hhs1. split; [|done]. rewrite Hlv; [done|lia].
  - unfold pools_aligned. rewrite Hcfg.
    destruct Hpl as [->|(i & fp & fp' & Ei & -> & _ & Hal' & _)]; [exact Hal|].
    apply Forall_insert; [done|].
    rewrite Hal'. apply (Forall_lookup_1 _ _ _ _ Hal Ei).
Qed.

Lemma held_block_stays_held_witness :
  8224 ≠ 4128 ∧
  handed_out (world_of (allocate 8192 200 sample_world_1)) 4128
    (Memory_Block_Header.mk 64 64 true (sample_pool_at 3)) ∧
  pools_aligned (world_of (allocate 8192 200 sample_world_1)).
Proof.
  apply (held_block_stays_held 8192 200 sample_world_1 4128
           (Memory_Block_Header.mk 64 64 true (sample_pool_at 3)) 8224
           (world_of (allocate 8192 200 sample_world_1))).
  - unfold pools_aligned.
    change (pools_ (pool sample_world_1))
      with (<[3%nat := Fixed_Size_Pool.mk (sample_pool_at 3) 64 8 [] 1 0 1]>
              (pools_ (pool sample_world))).
    repeat constructor.
  - split; [unfold nullptr; lia|].
    split; [reflexivity|].
    split; [unfold nullptr, sample_pool_at; simpl; lia|].
    split; [apply Z.leb_le; reflexivity|].
    split; [reflexivity|].
    split; [change (tls_cached sample_world_1) with (@nil Z); apply not_elem_of_nil|].
    split; [change (pool_free sample_world_1) with (@nil Z); apply not_elem_of_nil|].
    exists 96. split; [reflexivity|]. apply Z.ltb_lt. reflexivity.
  - split; [lia|].
    change (live (heap sample_world_1)) with (<[4096 := 96]> (∅ : gmap Z Z)).
    apply map_Forall_insert_2; [lia|apply map_Forall_empty].
  - reflexivity.
Defined.

(** ** An alignment larger than the smallest class *)

Lemma deallocate_other_pool ptr w hdr fp :
  ptr ≠ nullptr →
  headers (heap w) !! (ptr - header_size w) = Some hdr →
  Memory_Block_Header.pool_ptr hdr ≠ nullptr →
  let i := find_pool_index (config_ (pool w)) (Memory_Block_Header.block_size hdr) in
  0 ≤ i →
  pools_ (pool w) !! Z.to_nat i = Some fp →
  Memory_Block_Header.pool_ptr hdr ≠ Fixed_Size_Pool.this fp →
  deallocate ptr w =
    h' ← std_free (ptr - header_size w) (heap w);
    Some (set_stats (sub_current_used (Memory_Block_Header.size hdr))
            (set_stats (add_total_freed (Memory_Block_Header.size hdr))
               (set_heap h' (set_stats incr_free_count w)))).
Proof.
  intros Hp Hh Hn i Hi Hfp Ho. unfold deallocate.
  apply Z.eqb_neq in Hp. rewrite Hp.
  change (heap (set_stats incr_free_count w)) with (heap w).
  change (header_size (set_stats incr_free_count w)) with (header_size w).
  rewrite Hh.
  apply Z.eqb_neq in Hn. rewrite Hn. simpl negb. cbv iota.
  change (config_ (pool (set_stats incr_free_count w))) with (config_ (pool w)).
  fold i.
  assert ((i >=? 0) = true) as -> by lia.
  change (pools_ (pool (set_stats incr_free_count w))) with (pools_ (pool w)).
  rewrite Hfp.
  apply Z.eqb_neq in Ho. rewrite Ho. reflexivity.
Qed.

(** X14. With alignment 16 the 8-byte class is served by 16-byte blocks, and
    [deallocate] looks the owner up by the block size: it finds the 16-byte
    pool, which is not the owner, and releases the block to the platform.
    The pools and the thread's cache are not told, [total_freed] grows by 16
    where [total_allocated] grew by 8, and [current_used] wraps below zero. *)
Theorem small_block_with_alignment_16
    pool_at max_total_memory enable_tls h answer size :
  0 < size ≤ 8 →
  0 < answer →
  pool_at 0%nat ≠ nullptr →
  pool_at 0%nat ≠ pool_at 1%nat →
  ∃ p w1 w2,
    allocate answer size (fresh pool_at max_total_memory enable_tls 16 h)
      = Some (p, w1) ∧
    p ≠ nullptr ∧
    deallocate p w1 = Some w2 ∧
    live (heap w2) !! answer = None ∧
    pools_ (pool w2) = pools_ (pool w1) ∧
    tls_cache w2 = tls_cache w1 ∧
    total_allocated (stats_ (pool w2)) = 8 ∧
    total_freed (stats_ (pool w2)) = 16 ∧
    current_used (stats_ (pool w2)) = size_t_modulus - 8.
Proof.
  intros Hs Ha Hp0 Hp01.
  set (w0 := fresh pool_at max_total_memory enable_tls 16 h).
  assert (Hi : find_pool_index default_config size = 0).
  { pose proof (find_pool_index_cases default_config size eq_refl) as C.
    simpl in C. lia. }
  destruct (allocate_fresh_small pool_at max_total_memory enable_tls 16
              h answer size 0) as (w1 & E & Hp & Hcfg & Hsh & Hst & Hpl & Htls & Hh);
    [lia | done | lia | done |].
  change (align_up (class_size default_config 0) 16) with 16 in Hpl, Hh.
  change (class_size default_config 0) with 8 in Hst.
  change (header_size (fresh pool_at max_total_memory enable_tls 16 h)) with 32
    in E, Hp, Hh.
  change (Z.to_nat 0) with 0%nat in Hpl, Hh.
  fold w0 in E, Hcfg, Hpl.
  set (hdr := Memory_Block_Header.mk 16 16 true (pool_at 0%nat)) in *.
  assert (Hhs : header_size w1 = 32) by (unfold header_size; by rewrite Hcfg).
  assert (Hhdr : headers (heap w1) !! (answer + 32 - header_size w1) = Some hdr).
  { rewrite Hhs, Hh. replace (answer + 32 - 32) with answer by lia.
    simpl. apply lookup_insert_eq. }
  assert (Hidx : find_pool_index (config_ (pool w1))
                   (Memory_Block_Header.block_size hdr) = 1)
    by (rewrite Hcfg; reflexivity).
  assert (Hfp : pools_ (pool w1) !! Z.to_nat 1
                = Some (Fixed_Size_Pool.ctor (pool_at 1%nat) 16 16)).
  { rewrite Hpl. rewrite list_lookup_insert_ne by (by compute). reflexivity. }
  exists (answer + 32), w1.
  pose proof (deallocate_other_pool (answer + 32) w1 hdr
                (Fixed_Size_Pool.ctor (pool_at 1%nat) 16 16) Hp Hhdr Hp0) as D.
  cbv zeta in D. rewrite Hidx in D.
  rewrite (D ltac:(lia) Hfp Hp01). clear D.
  rewrite Hhs. replace (answer + 32 - 32) with answer by lia.
  unfold std_free.
  assert ((answer =? nullptr) = false) as -> by (unfold nullptr; lia).
  rewrite Hh. simpl live. rewrite lookup_insert_eq. simpl.
  eexists. split; [exact E|]. split; [exact Hp|]. split; [reflexivity|].
  simpl. rewrite Hst. simpl.
  split; [apply lookup_delete_eq|].
  repeat split; reflexivity.
Qed.

Lemma small_block_with_alignment_16_witness :
  ∃ p w1 w2,
    allocate 4096 5 (fresh sample_pool_at 0 true 16 empty_heap) = Some (p, w1) ∧
    p ≠ nullptr ∧
    deallocate p w1 = Some w2 ∧
    live (heap w2) !! 4096 = None ∧
    pools_ (pool w2) = pools_ (pool w1) ∧
    tls_cache w2 = tls_cache w1 ∧
    total_allocated (stats_ (pool w2)) = 8 ∧
    total_freed (stats_ (pool w2)) = 16 ∧
    current_used (stats_ (pool w2)) = size_t_modulus - 8.
Proof.
  apply (small_block_with_alignment_16 sample_pool_at 0 true empty_heap 4096 5).
  - lia.
  - lia.
  - unfold sample_pool_at, nullptr. simpl. lia.
  - unfold sample_pool_at. simpl. lia.
Defined.

(** ** A recycled block, seen from [Memory_Pool] *)

Lemma get_tls_cache_disabled w :
  enable_tls (config_ (pool w)) = false → get_tls_cache w = (None, w).
Proof. intros H. unfold get_tls_cache. by rewrite H. Qed.

(** X15. With the thread-local fast path disabled, a block that [allocate]
    takes from a pool's free list is lost when it is deallocated again: its
    header still says not in use, the pool turns the call away, and the block
    is on no free list afterwards although the caller has given it back.  The
    byte statistics are adjusted as if the block had been returned. *)
Theorem recycled_block_is_lost answer size w i fp q rest hd :
  shutdown_ (pool w) = false →
  enable_tls (config_ (pool w)) = false →
  size ≠ 0 →
  find_pool_index (config_ (pool w)) size = i →
  0 ≤ i →
  pools_ (pool w) !! Z.to_nat i = Some fp →
  Fixed_Size_Pool.alignment_ fp = alignment (config_ (pool w)) →
  Fixed_Size_Pool.free_blocks_ fp = q :: rest →
  q ≠ nullptr →
  headers (heap w) !! (q - header_size w) = Some hd →
  Memory_Block_Header.in_use hd = false →
  Memory_Block_Header.pool_ptr hd = Fixed_Size_Pool.this fp →
  Fixed_Size_Pool.this fp ≠ nullptr →
  find_pool_index (config_ (pool w)) (Memory_Block_Header.block_size hd) = i →
  ∃ w1 w2,
    allocate answer size w = Some (q, w1) ∧
    deallocate q w1 = Some w2 ∧
    heap w2 = heap w ∧
    pools_ (pool w2) = pools_ (pool w1) ∧
    Fixed_Size_Pool.free_blocks_ <$> pools_ (pool w2) !! Z.to_nat i = Some rest ∧
    total_freed (stats_ (pool w2))
      = wrap (total_freed (stats_ (pool w)) + class_size (config_ (pool w)) i).
Proof.
  intros Hsh He Hs Hi Hi0 Hfp Hal Hf Hq Hh Hu Ho Hthis Hbi.
  set (fp1 := Fixed_Size_Pool.mk (Fixed_Size_Pool.this fp)
                (Fixed_Size_Pool.block_size_ fp) (Fixed_Size_Pool.alignment_ fp) rest
                (wrap (Fixed_Size_Pool.current_used_ fp + 1))
                (wrap (Fixed_Size_Pool.current_free_ fp - 1))
                (Fixed_Size_Pool.total_allocated_ fp)).
  set (class := class_size (config_ (pool w)) i).
  set (w1 := set_stats (sub_current_free class)
               (set_stats (add_current_used class)
                  (set_stats (add_total_allocated class)
                     (set_heap (heap w)
                        (set_pools <[Z.to_nat i := fp1]>
                           (set_stats incr_alloc_count w)))))).
  assert (E : allocate answer size w = Some (q, w1)).
  { unfold allocate. rewrite Hsh.
    assert ((size =? 0) = false) as -> by by apply Z.eqb_neq.
    simpl orb. cbv iota.
    change (config_ (pool (set_stats incr_alloc_count w))) with (config_ (pool w)).
    rewrite Hi. assert ((i >=? 0) = true) as -> by lia.
    rewrite allocate_from_tls_miss by (by left).
    rewrite get_tls_cache_disabled by done. cbn [snd].
    change (nullptr =? nullptr) with true. simpl negb. cbv iota.
    change (pools_ (pool (set_stats incr_alloc_count w))) with (pools_ (pool w)).
    rewrite Hfp. unfold Fixed_Size_Pool.allocate. rewrite Hf.
    assert ((q =? nullptr) = false) as -> by by apply Z.eqb_neq.
    reflexivity. }
  assert (Hfp1 : pools_ (pool w1) !! Z.to_nat i = Some fp1).
  { simpl. apply list_lookup_insert_eq. by eapply lookup_lt_Some. }
  exists w1.
  pose proof (deallocate_pool_block q w1 hd fp1 Hq Hh) as D.
  cbv zeta in D.
  change (config_ (pool w1)) with (config_ (pool w)) in D. rewrite Hbi in D.
  rewrite (D ltac:(congruence) Hi0 Hfp1 Ho). clear D.
  rewrite return_to_tls_disabled by done.
  unfold Fixed_Size_Pool.deallocate.
  assert ((q =? nullptr) = false) as -> by by apply Z.eqb_neq.
  assert (Fixed_Size_Pool.header_size fp1 = header_size w) as ->
    by (unfold Fixed_Size_Pool.header_size, header_size; simpl; by rewrite Hal).
  change (heap (set_stats incr_free_count w1)) with (heap w).
  rewrite Hh, Hu. rewrite orb_true_r. simpl.
  eexists. split; [exact E|]. split; [reflexivity|]. simpl.
  rewrite list_insert_insert_eq.
  split; [done|]. split; [done|]. split; [|done].
  rewrite list_lookup_insert_eq by (by eapply lookup_lt_Some). done.
Qed.

Lemma recycled_block_is_lost_witness :
  ∃ w1 w2,
    allocate 8192 64 sample_world_no_tls_freed = Some (4128, w1) ∧
    deallocate 4128 w1 = Some w2 ∧
    heap w2 = heap sample_world_no_tls_freed ∧
    pools_ (pool w2) = pools_ (pool w1) ∧
    Fixed_Size_Pool.free_blocks_ <$> pools_ (pool w2) !! Z.to_nat 3 = Some [] ∧
    total_freed (stats_ (pool w2))
      = wrap (total_freed (stats_ (pool sample_world_no_tls_freed))
              + class_size (config_ (pool sample_world_no_tls_freed)) 3).
Proof.
  apply (recycled_block_is_lost 8192 64 sample_world_no_tls_freed 3
           (Fixed_Size_Pool.mk (sample_pool_at 3) 64 8 [4128] 0 1 1) 4128 []
           (Memory_Block_Header.mk 64 64 false (sample_pool_at 3))).
  - reflexivity.
  - reflexivity.
  - lia.
  - reflexivity.
  - lia.
  - reflexivity.
  - reflexivity.
  - reflexivity.
  - unfold nullptr. lia.
  - reflexivity.
  - reflexivity.
  - reflexivity.
  - unfold sample_pool_at, nullptr. simpl. lia.
  - reflexivity.
Defined.

(** ** Deallocation that reaches the pool *)

Lemma return_to_tls_rejected i ptr w :
  (return_to_tls i ptr w).1 = false →
  (return_to_tls i ptr w).2 = (get_tls_cache w).2.
Proof.
  unfold return_to_tls.
  destruct (get_tls_cache w) as [[c|] w1]; simpl; [|done].
  destruct (_ || _); [done|]. by destruct (Z.of_nat _ <? _).
Qed.

(** X16. When the thread's cache does not take a pool block that is in use
    (the fast path is disabled, or the stash of its class is full),
    [deallocate] returns it to its pool: the header is marked not in use, the
    address goes to the end of the pool's free list, the stashes are as they
    were, and [total_freed], [current_used] and [current_free] move by the
    class size. *)
Theorem deallocate_into_pool ptr w hdr i fp :
  ptr ≠ nullptr →
  headers (heap w) !! (ptr - header_size w) = Some hdr →
  Memory_Block_Header.pool_ptr hdr ≠ nullptr →
  Memory_Block_Header.in_use hdr = true →
  find_pool_index (config_ (pool w)) (Memory_Block_Header.block_size hdr) = i →
  0 ≤ i →
  pools_ (pool w) !! Z.to_nat i = Some fp →
  Memory_Block_Header.pool_ptr hdr = Fixed_Size_Pool.this fp →
  Fixed_Size_Pool.alignment_ fp = alignment (config_ (pool w)) →
  (return_to_tls i ptr (set_stats incr_free_count w)).1 = false →
  ∃ w',
    deallocate ptr w = Some w' ∧
    headers (heap w') !! (ptr - header_size w')
      = Some (Memory_Block_Header.set_in_use false hdr) ∧
    Fixed_Size_Pool.free_blocks_ <$> pools_ (pool w') !! Z.to_nat i
      = Some (Fixed_Size_Pool.free_blocks_ fp ++ [ptr]) ∧
    tls_cached w' = tls_cached w ∧
    total_freed (stats_ (pool w'))
      = wrap (total_freed (stats_ (pool w)) + class_size (config_ (pool w)) i) ∧
    current_used (stats_ (pool w'))
      = wrap (current_used (stats_ (pool w)) - class_size (config_ (pool w)) i) ∧
    current_free (stats_ (pool w'))
      = wrap (current_free (stats_ (pool w)) + class_size (config_ (pool w)) i).
Proof.
  intros Hp Hh Hn Hu Hi Hi0 Hfp Ho Hal Hrej.
  pose proof (deallocate_pool_block ptr w hdr fp Hp Hh Hn) as D.
  cbv zeta in D. rewrite Hi in D. rewrite (D Hi0 Hfp Ho). clear D.
  set (W := set_stats incr_free_count w) in *.
  pose proof (return_to_tls_rejected i ptr W Hrej) as HR.
  pose proof (get_tls_cache_pool W) as HP.
  pose proof (get_tls_cache_heap W) as HH.
  pose proof (get_tls_cache_cached W) as HC.
  destruct (return_to_tls i ptr W) as [acc w1]. cbn [fst snd] in Hrej, HR.
  subst acc w1.
  set (w1 := (get_tls_cache W).2) in *.
  change (heap W) with (heap w) in HH.
  change (tls_cached W) with (tls_cached w) in HC.
  unfold Fixed_Size_Pool.deallocate.
  assert ((ptr =? nullptr) = false) as -> by by apply Z.eqb_neq.
  assert (Fixed_Size_Pool.header_size fp = header_size w) as Hhs
    by (unfold Fixed_Size_Pool.header_size, header_size; by rewrite Hal).
  rewrite Hhs, HH, Hh, Hu, Ho, Z.eqb_refl. simpl.
  eexists. split; [reflexivity|]. simpl.
  unfold header_size. simpl. rewrite !HP. simpl.
  split; [apply lookup_insert_eq|].
  split.
  { rewrite list_lookup_insert_eq by (by eapply lookup_lt_Some). done. }
  split; [exact HC|]. done.
Qed.

Lemma deallocate_into_pool_witness :
  ∃ w',
    deallocate 4128 (world_of (allocate 4096 64 sample_world_no_tls)) = Some w' ∧
    headers (heap w') !! (4128 - header_size w')
      = Some (Memory_Block_Header.set_in_use false
                (Memory_Block_Header.mk 64 64 true (sample_pool_at 3))) ∧
    Fixed_Size_Pool.free_blocks_ <$> pools_ (pool w') !! Z.to_nat 3
      = Some (Fixed_Size_Pool.free_blocks_
                (Fixed_Size_Pool.mk (sample_pool_at 3) 64 8 [] 1 0 1) ++ [4128]) ∧
    tls_cached w' = tls_cached (world_of (allocate 4096 64 sample_world_no_tls)) ∧
    total_freed (stats_ (pool w'))
      = wrap (total_freed (stats_ (pool (world_of (allocate 4096 64 sample_world_no_tls))))
              + class_size (config_ (pool (world_of (allocate 4096 64 sample_world_no_tls)))) 3) ∧
    current_used (stats_ (pool w'))
      = wrap (current_used (stats_ (pool (world_of (allocate 4096 64 sample_world_no_tls))))
              - class_size (config_ (pool (world_of (allocate 4096 64 sample_world_no_tls)))) 3) ∧
    current_free (stats_ (pool w'))
      = wrap (current_free (stats_ (pool (world_of (allocate 4096 64 sample_world_no_tls))))
              + class_size (config_ (pool (world_of (allocate 4096 64 sample_world_no_tls)))) 3).
Proof.
  apply (deallocate_into_pool 4128 (world_of (allocate 4096 64 sample_world_no_tls))
           (Memory_Block_Header.mk 64 64 true (sample_pool_at 3)) 3
           (Fixed_Size_Pool.mk (sample_pool_at 3) 64 8 [] 1 0 1)).
  - unfold nullptr. lia.
  - reflexivity.
  - intros H. vm_compute in H. discriminate H.
  - reflexivity.
  - reflexivity.
  - lia.
  - reflexivity.
  - reflexivity.
  - reflexivity.
  - reflexivity.
Defined.

(** ** Requests above the largest class *)

(** X17. A request larger than every size class goes to the platform
    alone: the pools, the thread's cache and the headers are untouched, the
    platform's block is recorded with the raw size, and [total_allocated] and
    [current_used] grow by the raw size when the platform serves it and stay
    when it does not. *)
Theorem large_request_bypasses_pools answer size w :
  shutdown_ (pool w) = false →
  find_pool_index (config_ (pool w)) size = -1 →
  size ≠ 0 →
  ∃ w1,
    allocate answer size w = Some (answer, w1) ∧
    pools_ (pool w1) = pools_ (pool w) ∧
    tls_cache w1 = tls_cache w ∧
    headers (heap w1) = headers (heap w) ∧
    (answer ≠ nullptr →
       live (heap w1) = <[answer := size]> (live (heap w)) ∧
       total_allocated (stats_ (pool w1))
         = wrap (total_allocated (stats_ (pool w)) + size) ∧
       current_used (stats_ (pool w1))
         = wrap (current_used (stats_ (pool w)) + size)) ∧
    (answer = nullptr →
       heap w1 = heap w ∧
       stats_ (pool w1) = incr_alloc_count (stats_ (pool w))).
Proof.
  intros Hsh Hi Hs. unfold allocate.
  rewrite Hsh. apply Z.eqb_neq in Hs. rewrite Hs. simpl orb. cbv iota.
  change (config_ (pool (set_stats incr_alloc_count w))) with (config_ (pool w)).
  rewrite Hi. change (-1 >=? 0) with false. cbv iota.
  unfold std_malloc.
  destruct (answer =? nullptr) eqn:E.
  - apply Z.eqb_eq in E. subst answer. simpl. eexists. split; [reflexivity|].
    simpl. repeat split; done.
  - rewrite E. simpl. eexists. split; [reflexivity|]. simpl.
    apply Z.eqb_neq in E. repeat split; done.
Qed.

Lemma large_request_bypasses_pools_witness :
  ∃ w1,
    allocate 4096 2000 sample_world_1 = Some (4096, w1) ∧
    pools_ (pool w1) = pools_ (pool sample_world_1) ∧
    tls_cache w1 = tls_cache sample_world_1 ∧
    headers (heap w1) = headers (heap sample_world_1) ∧
    (4096 ≠ nullptr →
       live (heap w1) = <[4096 := 2000]> (live (heap sample_world_1)) ∧
       total_allocated (stats_ (pool w1))
         = wrap (total_allocated (stats_ (pool sample_world_1)) + 2000) ∧
       current_used (stats_ (pool w1))
         = wrap (current_used (stats_ (pool sample_world_1)) + 2000)) ∧
    (4096 = nullptr →
       heap w1 = heap sample_world_1 ∧
       stats_ (pool w1) = incr_alloc_count (stats_ (pool sample_world_1))).
Proof.
  apply (large_request_bypasses_pools 4096 2000 sample_world_1).
  - reflexivity.
  - reflexivity.
  - lia.
Defined.

(** ** Deallocation and the other blocks *)

Lemma pool_deallocate_effect ptr fp h fp' h' :
  Fixed_Size_Pool.deallocate ptr fp h = Some (fp', h') →
  Fixed_Size_Pool.this fp' = Fixed_Size_Pool.this fp ∧
  Fixed_Size_Pool.alignment_ fp' = Fixed_Size_Pool.alignment_ fp ∧
  (∀ x, x ∈ Fixed_Size_Pool.free_blocks_ fp' →
        x = ptr ∨ x ∈ Fixed_Size_Pool.free_blocks_ fp) ∧
  live h' = live h ∧
  (∀ a, a ≠ ptr - Fixed_Size_Pool.header_size fp → headers h' !! a = headers h !! a).
Proof.
  unfold Fixed_Size_Pool.deallocate.
  destruct (ptr =? nullptr); [intros [= <- <-]; repeat split; eauto|].
  destruct (headers h !! _) as [hd|]; [|done].
  destruct (_ || _); intros [= <- <-]; [repeat split; eauto|].
  simpl. repeat split; try done.
  - intros x Hx. apply elem_of_app in Hx as [Hx|Hx]; [by right|].
    left. by apply list_elem_of_singleton in Hx.
  - intros a Ha. by rewrite lookup_insert_ne.
Qed.

Lemma deallocate_effect ptr w w' :
  pools_aligned w →
  deallocate ptr w = Some w' →
  config_ (pool w') = config_ (pool w) ∧
  (∀ a, a ≠ ptr - header_size w →
        headers (heap w') !! a = headers (heap w) !! a ∧
        live (heap w') !! a = live (heap w) !! a) ∧
  (∀ x, x ∈ tls_cached w' → x = ptr ∨ x ∈ tls_cached w) ∧
  (pools_ (pool w') = pools_ (pool w) ∨
   ∃ i fp fp',
     pools_ (pool w) !! i = Some fp ∧
     pools_ (pool w') = <[i := fp']> (pools_ (pool w)) ∧
     Fixed_Size_Pool.this fp' = Fixed_Size_Pool.this fp ∧
     Fixed_Size_Pool.alignment_ fp' = Fixed_Size_Pool.alignment_ fp ∧
     ∀ x, x ∈ Fixed_Size_Pool.free_blocks_ fp' →
          x = ptr ∨ x ∈ Fixed_Size_Pool.free_blocks_ fp).
Proof.
  intros Hal. unfold deallocate.
  destruct (ptr =? nullptr); [intros [= <-]; repeat split; eauto|].
  set (W := set_stats incr_free_count w).
  change (header_size W) with (header_size w).
  change (heap W) with (heap w).
  destruct (headers (heap w) !! _) as [hdr|]; [|done].
  set (release := std_free _ _ ≫= _).
  assert (Hrel : release = Some w' →
    config_ (pool w') = config_ (pool w) ∧
    (∀ a, a ≠ ptr - header_size w →
          headers (heap w') !! a = headers (heap w) !! a ∧
          live (heap w') !! a = live (heap w) !! a) ∧
    (∀ x, x ∈ tls_cached w' → x = ptr ∨ x ∈ tls_cached w) ∧
    (pools_ (pool w') = pools_ (pool w) ∨
     ∃ i fp fp',
       pools_ (pool w) !! i = Some fp ∧
       pools_ (pool w') = <[i := fp']> (pools_ (pool w)) ∧
       Fixed_Size_Pool.this fp' = Fixed_Size_Pool.this fp ∧
       Fixed_Size_Pool.alignment_ fp' = Fixed_Size_Pool.alignment_ fp ∧
       ∀ x, x ∈ Fixed_Size_Pool.free_blocks_ fp' →
            x = ptr ∨ x ∈ Fixed_Size_Pool.free_blocks_ fp)).
  { unfold release, std_free.
    destruct (ptr - header_size w =? nullptr).
    { simpl. intros [= <-]. repeat split; eauto. }
    destruct (live (heap w) !! _); simpl; [|done].
    intros [= <-]. simpl. repeat split; eauto.
    - by rewrite lookup_delete_ne.
    - by rewrite lookup_delete_ne. }
  clearbody release.
  destruct (negb _); [|done].
  set (i := find_pool_index _ _). clearbody i.
  change (pools_ (pool W)) with (pools_ (pool w)).
  destruct (i >=? 0); [|done].
  destruct (pools_ (pool w) !! Z.to_nat i) as [fp|] eqn:Efp; [|done].
  destruct (_ =? Fixed_Size_Pool.this fp); [|done].
  pose proof (return_to_tls_pool i ptr W) as HP.
  pose proof (return_to_tls_heap i ptr W) as HH.
  pose proof (return_to_tls_cached i ptr W) as HC.
  destruct (return_to_tls i ptr W) as [acc w1]. cbn [fst snd] in HP, HH, HC.
  change (tls_cached W) with (tls_cached w) in HC.
  change (heap W) with (heap w) in HH.
  assert (HC' : ∀ x, x ∈ tls_cached w1 → x = ptr ∨ x ∈ tls_cached w).
  { intros x Hx. destruct (HC x Hx) as [[-> _]|?]; [by left|by right]. }
  destruct acc.
  - intros [= <-]. rewrite HP, HH. repeat split; eauto.
  - destruct (Fixed_Size_Pool.deallocate ptr fp (heap w1)) as [[fp' h']|] eqn:ED;
      simpl; [|done].
    destruct (pool_deallocate_effect _ _ _ _ _ ED) as (H1 & H2 & H3 & H4 & H5).
    assert (Fixed_Size_Pool.header_size fp = header_size w) as Hhs.
    { unfold Fixed_Size_Pool.header_size, header_size.
      by rewrite (Forall_lookup_1 _ _ _ _ Hal Efp). }
    rewrite Hhs, HH in H5. rewrite HH in H4.
    intros [= <-]. simpl. rewrite HP. simpl.
    split; [done|]. split; [|split; [done|]].
    + intros a Ha. rewrite H4. split; [by apply H5|done].
    + right. exists (Z.to_nat i), fp, fp'. done.
Qed.

(** X18. [deallocate] of one address does not disturb another block the
    caller holds: on a pool whose pools share the pool-wide alignment, a block
    that is handed out is still handed out, with the same header, after
    [deallocate] of any other address. *)
Theorem deallocate_spares_other_blocks ptr other w hdr w' :
  pools_aligned w →
  handed_out w other hdr →
  other ≠ ptr →
  deallocate ptr w = Some w' →
  handed_out w' other hdr ∧ pools_aligned w'.
Proof.
  intros Hal (Hp & Hh & Hn & Hi & Hthis & Htls & Hfree & sz & Hlive & Hsz) Hne E.
  destruct (deallocate_effect _ _ _ Hal E) as (Hcfg & Hfr & Hsubt & Hpl).
  assert (Hhs1 : header_size w' = header_size w)
    by (unfold header_size; by rewrite Hcfg).
  destruct (Hfr (other - header_size w) ltac:(lia)) as [Hhd Hlv].
  split.
  - split; [done|].
    split; [by rewrite Hhs1, Hhd|].
    split; [done|].
    rewrite Hcfg. split; [done|].
    split.
    { destruct Hpl as [->|(j & fp & fp' & Ej & -> & Ht & _)]; [done|].
      destruct (decide (Z.to_nat (find_pool_index (config_ (pool w))
                                    (Memory_Block_Header.block_size hdr)) = j))
        as [Hj|Hj].
      - rewrite Hj in *. rewrite Ej in Hthis.
        rewrite list_lookup_insert_eq by (by eapply lookup_lt_Some).
        simpl in *. congruence.
      - by rewrite list_lookup_insert_ne. }
    split. { intros H. destruct (Hsubt _ H); [done|by apply Htls]. }
    split.
    { unfold pool_free.
      destruct Hpl as [->|(j & fp & fp' & Ej & -> & _ & _ & Hf)]; [done|].
      intros H. apply pool_free_insert in H as [H|H]; [|done].
      destruct (Hf _ H) as [?|H']; [done|].
      apply Hfree. by apply (elem_of_pool_free w _ fp _ Ej). }
    exists sz. by rewrite Hhs1, Hlv.
  - unfold pools_aligned. rewrite Hcfg.
    destruct Hpl as [->|(j & fp & fp' & Ej & -> & _ & Hal' & _)]; [exact Hal|].
    apply Forall_insert; [done|].
    rewrite Hal'. apply (Forall_lookup_1 _ _ _ _ Hal Ej).
Qed.

Lemma deallocate_spares_other_blocks_witness :
  handed_out sample_world_2_freed 4128
    (Memory_Block_Header.mk 64 64 true (sample_pool_at 3)) ∧
  pools_aligned sample_world_2_freed.
Proof.
  apply (deallocate_spares_other_blocks 8224 4128 sample_world_2
           (Memory_Block_Header.mk 64 64 true (sample_pool_at 3))).
  - unfold pools_aligned. vm_compute. repeat constructor.
  - split; [unfold nullptr; lia|].
    split; [reflexivity|].
    split; [unfold nullptr, sample_pool_at; simpl; lia|].
    split; [apply Z.leb_le; reflexivity|].
    split; [reflexivity|].
    split; [change (tls_cached sample_world_2) with (@nil Z); apply not_elem_of_nil|].
    split; [change (pool_free sample_world_2) with (@nil Z); apply not_elem_of_nil|].
    exists 96. split; [reflexivity|]. apply Z.ltb_lt. reflexivity.
  - lia.
  - reflexivity.
Defined.
